(** * Input pipelines of bert_multitask_learning/input_fn.py

    A shallow embedding of [element_length_func], [train_eval_input_fn],
    [predict_input_fn] and [to_serving_input], together with the properties
    of the input-pipeline glue that the specification states.

    Python values are modelled as follows.
    - [int] is [Z] (unbounded); [str] is [string]; a [list] is a [list].
    - A feature dictionary ([dict] from feature name to integer data) is a
      [gmap string Feature].
    - A raised exception is the [Raise] branch of [result]; statements are
      sequenced with the monadic bind of [result].
    - The file system read by [open(...).readlines()] is a [gmap] from path
      to file content, the bytes of the file; a decoded text is kept as its
      UTF-8 bytes.
    - A [tf.data.Dataset] is the lazy pipeline description [Dataset]: one
      constructor per framework call made by the source.
    - Dictionaries that are mutated in place live in a heap of dictionary
      objects addressed by [loc]; a generator is a state machine stepped by
      [gen_next]. *)

From Stdlib Require Import ZArith String Ascii List Lia.
From stdpp Require Import base option list gmap sets strings.

Local Open Scope string_scope.

(** ** Exceptions and fallible computations *)

Inductive exn : Type :=
| IndexError
| KeyError (key : string)
| FileNotFoundError (path : string)
| UnicodeDecodeError
| InvalidArgumentError
| TypeError
| ValueError
| CollaboratorError (code : Z).

Inductive result (A : Type) : Type :=
| Ok (a : A)
| Raise (e : exn).
Arguments Ok {A} a.
Arguments Raise {A} e.

#[global] Instance result_ret : MRet result := fun _ a => Ok a.
#[global] Instance result_bind : MBind result := fun _ _ f m =>
  match m with
  | Ok a => f a
  | Raise e => Raise e
  end.

Definition is_ok {A} (m : result A) : bool :=
  match m with Ok _ => true | Raise _ => false end.

(** [d[k]] on a Python dict: [KeyError] when the key is absent. *)
Definition getitem {V} (d : gmap string V) (k : string) : result V :=
  match d !! k with
  | Some v => Ok v
  | None => Raise (KeyError k)
  end.

(** [l[0]] on a Python list: [IndexError] when the list is empty. *)
Definition first_item {A} (l : list A) : result A :=
  match l with
  | x :: _ => Ok x
  | [] => Raise IndexError
  end.

(** ** Data model *)

(** The value of one feature: an integer or a sequence of integers. *)
Inductive Feature : Type :=
| Scalar (n : Z)
| Vector (v : list Z).

#[global] Instance Feature_eq_dec : EqDecision Feature.
Proof. solve_decision. Defined.

(** A feature dictionary: feature name to value. *)
Abbreviation FeatureDict := (gmap string Feature).

(** [tf.shape(t)]: the list of dimension sizes of a tensor. *)
Definition tf_shape (t : Feature) : list Z :=
  match t with
  | Scalar _ => []
  | Vector v => [Z.of_nat (length v)]
  end.

(** [element_length_func], input_fn.py line 22:
    [return tf.shape(yield_dict['input_ids'])[0]]. *)
Definition element_length_func (yield_dict : FeatureDict) : result Z :=
  t ← getitem yield_dict "input_ids";
  match tf_shape t with
  | d :: _ => Ok d
  | [] => Raise InvalidArgumentError
  end.

(** The feature dictionary that holds exactly the three text features. *)
Definition text_features (input_ids input_mask segment_ids : list Z)
    : FeatureDict :=
  <["input_ids" := Vector input_ids]>
    (<["input_mask" := Vector input_mask]>
       (<["segment_ids" := Vector segment_ids]> ∅)).

Definition text_feature_names : gset string :=
  {["input_ids"; "input_mask"; "segment_ids"]}.

(** ** Configuration *)

(** The [Params] object: the options read by the input functions.
    [problem_list] names the configured tasks. *)
Record Params : Type := {
  vocab_file : string;
  batch_size : Z;
  shuffle_buffer : Z;
  dynamic_padding : bool;
  bucket_batch_sizes : list Z;
  bucket_boundaries : list Z;
  max_seq_len : Z;
  problem_list : list string
}.

(** ** Datasets *)

Inductive DType : Type := tf_int32 | tf_float32 | tf_string.

#[global] Instance DType_eq_dec : EqDecision DType.
Proof. solve_decision. Defined.

(** A static shape: one entry per dimension, [None] for an unknown size. *)
Abbreviation Shape := (list (option Z)).

(** [tf.data.experimental.AUTOTUNE]. *)
Definition AUTOTUNE : Z := (-1)%Z.

(** A [tf.data.Dataset] is a lazy description of a pipeline; nothing is
    computed until it is iterated.  There is one constructor per framework
    call that input_fn.py makes, plus the record-file source that the Record
    Reader builds its per-task datasets from. *)
Inductive Dataset : Type :=
| TFRecordDataset (filenames : list string)
| SampleFromDatasets (datasets : list Dataset)
| Shuffle (buffer_size : Z) (input : Dataset)
| Prefetch (buffer_size : Z) (input : Dataset)
| BucketBySequenceLength (length_func : FeatureDict -> result Z)
    (bucket_boundaries_arg bucket_batch_sizes_arg : list Z) (input : Dataset)
| Batch (batch_size_arg : Z) (input : Dataset)
| FromGenerator (gen : list FeatureDict)
    (output_types : gmap string DType) (output_shapes : gmap string Shape)
| PaddedBatch (batch_size_arg : Z) (padded_shapes : gmap string Shape)
    (input : Dataset).

(** [tf.data.experimental.sample_from_datasets(datasets)]: the framework
    reads the element type of [datasets[0]] while it builds the node, so an
    empty list is rejected at construction.  (It also compares the element
    types of the datasets; record files are not typed in this model.) *)
Definition sample_from_datasets (datasets : list Dataset) : result Dataset :=
  match datasets with
  | [] => Raise IndexError
  | _ :: _ => Ok (SampleFromDatasets datasets)
  end.

(** [dataset.apply(tf.data.experimental.bucket_by_sequence_length(...))]:
    the framework raises [ValueError] unless
    [len(bucket_batch_sizes) == len(bucket_boundaries) + 1]. *)
Definition bucket_by_sequence_length (length_func : FeatureDict -> result Z)
    (sizes boundaries : list Z) (input : Dataset) : result Dataset :=
  if decide (length sizes = S (length boundaries))
  then Ok (BucketBySequenceLength length_func boundaries sizes input)
  else Raise ValueError.

(** The transformations stacked on top of a dataset, in the order in which
    they were applied, and the dataset they were applied to. *)
Inductive Transformation : Type :=
| TShuffle (buffer_size : Z)
| TPrefetch (buffer_size : Z)
| TBucket (boundaries sizes : list Z)
| TBatch (n : Z)
| TPaddedBatch (n : Z).

#[global] Instance Transformation_eq_dec : EqDecision Transformation.
Proof. solve_decision. Defined.

Fixpoint transformations (d : Dataset) : list Transformation :=
  match d with
  | Shuffle b input => transformations input ++ [TShuffle b]
  | Prefetch b input => transformations input ++ [TPrefetch b]
  | BucketBySequenceLength _ bs sz input =>
      transformations input ++ [TBucket bs sz]
  | Batch n input => transformations input ++ [TBatch n]
  | PaddedBatch n _ input => transformations input ++ [TPaddedBatch n]
  | TFRecordDataset _ | SampleFromDatasets _ | FromGenerator _ _ _ => []
  end.

Fixpoint pipeline_input (d : Dataset) : Dataset :=
  match d with
  | Shuffle _ input | Prefetch _ input | BucketBySequenceLength _ _ _ input
  | Batch _ input | PaddedBatch _ _ input => pipeline_input input
  | TFRecordDataset _ | SampleFromDatasets _ | FromGenerator _ _ _ => d
  end.

(** The sizes of the fixed-size [batch] steps among the transformations. *)
Definition fixed_batch_sizes (d : Dataset) : list Z :=
  omap (fun t => match t with TBatch n => Some n | _ => None end)
       (transformations d).

(** The buffer sizes of the [shuffle] steps among the transformations. *)
Definition shuffle_buffers (d : Dataset) : list Z :=
  omap (fun t => match t with TShuffle b => Some b | _ => None end)
       (transformations d).

(** The buffer sizes of the [prefetch] steps among the transformations. *)
Definition prefetch_buffers (d : Dataset) : list Z :=
  omap (fun t => match t with TPrefetch b => Some b | _ => None end)
       (transformations d).

(** ** The world outside the process *)

(** Text files: path to content. *)
Abbreviation FileSystem := (gmap string string).

(** Persisted record files: task name to the encoded examples it holds. *)
Abbreviation RecordStore := (gmap string (list FeatureDict)).

(** ** Collaborators

    input_fn.py imports its tokenizer, its feature encoders, its record
    reader and writer and a few utilities from sibling modules.  Their
    interface, as input_fn.py uses it, is collected in one class; every
    call may raise. *)

Record Tokenizer : Type := {
  tokenize : string -> result (list string);
  convert_tokens_to_ids : list string -> result (list Z)
}.

(** Sequence labels travelling with the tokens; input_fn.py passes [None]. *)
Abbreviation Target := (option (list string)).

(** One element of the prediction input: a plain string or a dictionary
    (of texts or of raw modality data). *)
Inductive InputValue : Type :=
| VText (s : string)
| VArray (v : list Z).

Inductive InputElement : Type :=
| IStr (s : string)
| IDict (d : gmap string InputValue).

(** The signature shared by the two feature encoders, in the order
    [problem, label_encoder, params, tokenizer, mode, problem_type, is_seq,
    example_list]. *)
Abbreviation FeatureEncoder :=
  (string -> option (list string) -> Params -> Tokenizer -> string ->
   string -> bool -> list InputElement -> result (list FeatureDict)).

Class Collaborators : Type := {
  (* bert_preprocessing.tokenization *)
  FullTokenizer : string -> FileSystem -> result Tokenizer;
  (* bert_preprocessing.bert_utils *)
  tokenize_text_with_seqs :
    Tokenizer -> list string -> Target -> result (list string * Target);
  truncate_seq_pair :
    list string -> option (list string) -> Target -> Z ->
    result (list string * option (list string) * Target);
  add_special_tokens_with_seqs :
    list string -> option (list string) -> Target ->
    result (list string * list Z * Target);
  create_mask_and_padding :
    list string -> list Z -> Target -> Z ->
    result (list Z * list string * list Z * Target);
  (* bert_preprocessing.create_bert_features *)
  create_bert_features : FeatureEncoder;
  create_multimodal_bert_features : FeatureEncoder;
  (* read_write_tfrecord *)
  write_tfrecord : Params -> RecordStore -> result RecordStore;
  read_tfrecord :
    Params -> string -> RecordStore -> result (list (string * Dataset));
  (* utils *)
  cluster_alphnum : string -> result (list string);
  infer_shape_and_type_from_dict :
    FeatureDict -> result (gmap string Shape * gmap string DType)
}.

(** ** The train and eval pipeline *)

Section TrainEval.
Context `{Collaborators}.

(** [train_eval_input_fn], input_fn.py lines 26-69.  The record store is
    threaded through because [write_tfrecord] may change it. *)
Definition train_eval_input_fn (params : Params) (mode : string)
    (store : RecordStore) : result (Dataset * RecordStore) :=
  store ← write_tfrecord params store;
  dataset_dict ← read_tfrecord params mode store;
  dataset ← sample_from_datasets (map snd dataset_dict);
  let dataset :=
    if String.eqb mode "train"
    then Shuffle (shuffle_buffer params) dataset
    else dataset in
  let dataset := Prefetch AUTOTUNE dataset in
  dataset ←
    (if dynamic_padding params
     then bucket_by_sequence_length element_length_func
            (bucket_batch_sizes params) (bucket_boundaries params) dataset
     else if String.eqb mode "train"
          then Ok (Batch (batch_size params) dataset)
          else Ok (Batch (batch_size params * 2) dataset));
  Ok (dataset, store).

End TrainEval.

(** ** Reading input files *)

(** The argument [input_file_or_list]: [isinstance(_, str)] separates a
    path from an in-memory list. *)
Inductive FileOrList (A : Type) : Type :=
| FilePath (path : string)
| InList (items : list A).
Arguments FilePath {A} path.
Arguments InList {A} items.

Definition newline : ascii := ascii_of_nat 10.

Definition carriage_return : ascii := ascii_of_nat 13.

(** [lo <= c <= hi] on the value of a byte. *)
Definition byte_in (lo hi : nat) (c : ascii) : bool :=
  let n := nat_of_ascii c in
  (lo <=? n)%nat && (n <=? hi)%nat.

(** The strict UTF-8 decoder of [encoding='utf8'], as an acceptor:
    [expect] lists the ranges the next continuation bytes must lie in.  A
    lead byte fixes the ranges of its continuation bytes, which excludes
    overlong forms, surrogates and code points above U+10FFFF; a sequence
    cut short by the end of the file is rejected. *)
Fixpoint utf8_decodes (expect : list (nat * nat)) (bytes : string) : bool :=
  match bytes with
  | EmptyString => match expect with [] => true | _ :: _ => false end
  | String c rest =>
      match expect with
      | (lo, hi) :: more => byte_in lo hi c && utf8_decodes more rest
      | [] =>
          if byte_in 0 127 c then utf8_decodes [] rest
          else if byte_in 194 223 c then utf8_decodes [(128, 191)] rest
          else if byte_in 224 224 c
               then utf8_decodes [(160, 191); (128, 191)] rest
          else if byte_in 225 236 c
               then utf8_decodes [(128, 191); (128, 191)] rest
          else if byte_in 237 237 c
               then utf8_decodes [(128, 159); (128, 191)] rest
          else if byte_in 238 239 c
               then utf8_decodes [(128, 191); (128, 191)] rest
          else if byte_in 240 240 c
               then utf8_decodes [(144, 191); (128, 191); (128, 191)] rest
          else if byte_in 241 243 c
               then utf8_decodes [(128, 191); (128, 191); (128, 191)] rest
          else if byte_in 244 244 c
               then utf8_decodes [(128, 143); (128, 191); (128, 191)] rest
          else false
      end
  end.

Definition utf8_valid (bytes : string) : bool := utf8_decodes [] bytes.

(** The newline translation of a file opened in text mode with the default
    [newline=None]: a carriage return followed by a line feed, and a lone
    carriage return, are each read as one line feed. *)
Fixpoint universal_newlines (content : string) : string :=
  match content with
  | EmptyString => EmptyString
  | String c rest =>
      if Ascii.eqb c carriage_return
      then String newline
             match rest with
             | EmptyString => EmptyString
             | String c' rest' =>
                 if Ascii.eqb c' newline then universal_newlines rest'
                 else universal_newlines rest
             end
      else String c (universal_newlines rest)
  end.

(** A text cut after every line feed, each line keeping its terminator;
    [cur] is the line being read. *)
Fixpoint readlines_from (cur : string) (content : string) : list string :=
  match content with
  | EmptyString => match cur with EmptyString => [] | _ => [cur] end
  | String c rest =>
      if Ascii.eqb c newline
      then (cur ++ String c EmptyString) :: readlines_from "" rest
      else readlines_from (cur ++ String c EmptyString) rest
  end.

(** [f.readlines()] on the decoded content of a text-mode file: newlines
    are translated, then the text is cut after every line feed. *)
Definition readlines (content : string) : list string :=
  readlines_from "" (universal_newlines content).

(** [open(path, 'r', encoding='utf8').readlines()] on a file system of
    readable regular files: a missing path raises [FileNotFoundError],
    bytes that are not UTF-8 raise [UnicodeDecodeError]. *)
Definition open_readlines (path : string) (fs : FileSystem)
    : result (list string) :=
  match fs !! path with
  | Some content =>
      if utf8_valid content then Ok (readlines content)
      else Raise UnicodeDecodeError
  | None => Raise (FileNotFoundError path)
  end.

(** ** The predict pipeline *)

Section Predict.
Context `{Collaborators}.

(** Lines 92-95: a path is read as lines, a list is used as it is. *)
Definition predict_inputs (input_file_or_list : FileOrList InputElement)
    (fs : FileSystem) : result (list InputElement) :=
  match input_file_or_list with
  | FilePath path =>
      lines ← open_readlines path fs; Ok (IStr <$> (lines : list string))
  | InList items => Ok items
  end.

(** Line 98: [isinstance(x, dict) and 'a' not in x]. *)
Definition is_dict_without_a (x : InputElement) : bool :=
  match x with
  | IDict d => bool_decide (d !! "a" = None)
  | IStr _ => false
  end.

(** Lines 98-113: the encoder is chosen by looking at [inputs[0]]; the
    result is the partially applied encoder [part_fn]. *)
Definition predict_part_fn (config : Params) (tokenizer : Tokenizer)
    (mode : string) (inputs : list InputElement)
    : result (list InputElement -> result (list FeatureDict)) :=
  first ← first_item inputs;
  if is_dict_without_a first
  then Ok (create_multimodal_bert_features
             "" None config tokenizer mode "cls" false)
  else Ok (create_bert_features "" None config tokenizer mode "cls" false).

(** Lines 114-129: every input is encoded by [part_fn] into the list
    [data_list]; the generator [gen] closes over that list; the structure
    of the dataset is inferred from [data_list[0]]. *)
Definition predict_dataset (config : Params)
    (part_fn : list InputElement -> result (list FeatureDict))
    (inputs : list InputElement) : result Dataset :=
  data_list ← part_fn inputs;
  first ← first_item data_list;
  '(output_shapes, output_type) ← infer_shape_and_type_from_dict first;
  let dataset := FromGenerator data_list output_type output_shapes in
  let dataset := PaddedBatch (batch_size config) output_shapes dataset in
  Ok dataset.

(** [predict_input_fn], input_fn.py lines 72-129. *)
Definition predict_input_fn (input_file_or_list : FileOrList InputElement)
    (config : Params) (mode : string) (fs : FileSystem) : result Dataset :=
  inputs ← predict_inputs input_file_or_list fs;
  tokenizer ← FullTokenizer (vocab_file config) fs;
  part_fn ← predict_part_fn config tokenizer mode inputs;
  predict_dataset config part_fn inputs.

End Predict.

(** ** Iterating an in-memory dataset

    What the framework produces when a generator-backed dataset is iterated
    to its end.  Datasets backed by record files are read by the framework
    and have no rule here. *)

(** A value fits a declared shape when the ranks agree and every declared
    dimension is met. *)
Definition fits_shape (shape : Shape) (t : Feature) : Prop :=
  match t, shape with
  | Scalar _, [] => True
  | Vector v, [None] => True
  | Vector v, [Some n] => Z.of_nat (length v) = n
  | _, _ => False
  end.

(** An element matches the declared structure of a generator dataset when
    it has exactly the declared feature names and every value fits the
    declared shape of its name. *)
Definition conforms (types : gmap string DType) (shapes : gmap string Shape)
    (r : FeatureDict) : Prop :=
  dom r = dom types /\ dom r = dom shapes /\
  forall k t shape, r !! k = Some t -> shapes !! k = Some shape ->
                    fits_shape shape t.

(** [dataset.batch(n)] without [drop_remainder]: elements are collected
    until [n] are held, the last batch may be shorter; [cur] is the batch
    being filled. *)
Fixpoint batch_from {A} (n : nat) (cur : list A) (xs : list A)
    : list (list A) :=
  match xs with
  | [] => match cur with [] => [] | _ => [cur] end
  | x :: rest =>
      let cur := (cur ++ [x])%list in
      if decide (length cur = n) then cur :: batch_from n [] rest
      else batch_from n cur rest
  end.

Definition batch_elements {A} (n : nat) (xs : list A) : list (list A) :=
  batch_from n [] xs.

Definition feature_length (t : Feature) : nat :=
  match t with
  | Scalar _ => 0
  | Vector v => length v
  end.

(** The length every value of feature [k] is padded to in one batch: the
    declared dimension, or the longest value in the batch when the
    dimension is unknown. *)
Definition padded_length (shapes : gmap string Shape) (k : string)
    (batch : list FeatureDict) : nat :=
  match shapes !! k with
  | Some [Some n] => Z.to_nat n
  | _ => max_list_with (fun r => from_option feature_length 0 (r !! k)) batch
  end.

Definition pad_feature (len : nat) (t : Feature) : Feature :=
  match t with
  | Scalar n => Scalar n
  | Vector v => Vector (v ++ replicate (len - length v) 0%Z)%list
  end.

Definition pad_record (shapes : gmap string Shape) (batch : list FeatureDict)
    (r : FeatureDict) : FeatureDict :=
  map_imap (fun k t => Some (pad_feature (padded_length shapes k batch) t)) r.

Definition pad_batch (shapes : gmap string Shape) (batch : list FeatureDict)
    : list FeatureDict :=
  pad_record shapes batch <$> batch.

(** The elements of a dataset that is not batched. *)
Inductive yields : Dataset -> list FeatureDict -> Prop :=
| yields_generator data types shapes :
    Forall (conforms types shapes) data ->
    yields (FromGenerator data types shapes) data
| yields_prefetch b d xs :
    yields d xs -> yields (Prefetch b d) xs
| yields_shuffle b d xs ys :
    yields d xs -> xs ≡ₚ ys -> yields (Shuffle b d) ys.

(** The batches of a batched dataset. *)
Inductive yields_batches : Dataset -> list (list FeatureDict) -> Prop :=
| batches_batch n d xs :
    (0 < n)%Z -> yields d xs ->
    yields_batches (Batch n d) (batch_elements (Z.to_nat n) xs)
| batches_padded_batch n shapes d xs :
    (0 < n)%Z -> yields d xs ->
    yields_batches (PaddedBatch n shapes d)
      (pad_batch shapes <$> batch_elements (Z.to_nat n) xs).

(** ** The serving generator *)

(** Dictionaries that are mutated in place are objects in a heap. *)
Abbreviation loc := nat.
Abbreviation Heap := (gmap loc FeatureDict).

(** [d[k] = v] on the dictionary object at [l]. *)
Definition setitem (l : loc) (k : string) (v : Feature) (h : Heap) : Heap :=
  alter (insert k v) l h.

(** The content of the dictionary object at [l]. *)
Definition deref (h : Heap) (l : loc) : FeatureDict := default ∅ (h !! l).

(** A generator object: created and not yet started, suspended at the
    [yield] with the lines still to be processed, or finished. *)
Inductive Generator : Type :=
| GenCreated (input_file_or_list : FileOrList string) (config : Params)
    (mode : string) (tokenizer : option Tokenizer)
| GenSuspended (config : Params) (tokenizer : Tokenizer) (data_dict : loc)
    (rest : list string)
| GenClosed.

Section Serving.
Context `{Collaborators}.

(** Lines 157-170: the preprocessing chain applied to one line. *)
Definition serving_features (config : Params) (tokenizer : Tokenizer)
    (doc : string) : result (list Z * list Z * list Z) :=
  inputs_a ← cluster_alphnum doc;
  '(tokens, target) ← tokenize_text_with_seqs tokenizer inputs_a None;
  '(tokens_a, tokens_b, target) ←
    truncate_seq_pair tokens None target (max_seq_len config);
  '(tokens, segment_ids, target) ←
    add_special_tokens_with_seqs tokens_a tokens_b target;
  '(input_mask, tokens, segment_ids, target) ←
    create_mask_and_padding tokens segment_ids target (max_seq_len config);
  input_ids ← convert_tokens_to_ids tokenizer tokens;
  Ok (input_ids, input_mask, segment_ids).

(** Lines 171-173: the three assignments into [data_dict]. *)
Definition store_features (data_dict : loc)
    (features : list Z * list Z * list Z) (h : Heap) : Heap :=
  let '(input_ids, input_mask, segment_ids) := features in
  let h := setitem data_dict "input_ids" (Vector input_ids) h in
  let h := setitem data_dict "input_mask" (Vector input_mask) h in
  let h := setitem data_dict "segment_ids" (Vector segment_ids) h in
  h.

(** One turn of the [for doc in inputs] loop, lines 156-174: run up to
    the next [yield], or finish when no line is left.  The yielded value
    is the reference [data_dict] itself. *)
Definition serving_loop (config : Params) (tokenizer : Tokenizer)
    (data_dict : loc) (rest : list string) (h : Heap)
    : result (option loc * Generator * Heap) :=
  match rest with
  | [] => Ok (None, GenClosed, h)
  | doc :: rest =>
      features ← serving_features config tokenizer doc;
      let h := store_features data_dict features h in
      Ok (Some data_dict, GenSuspended config tokenizer data_dict rest, h)
  end.

(** [to_serving_input], input_fn.py lines 132-174: the body contains
    [yield], so the call only creates the generator object. *)
Definition to_serving_input (input_file_or_list : FileOrList string)
    (config : Params) (mode : string) (tokenizer : option Tokenizer)
    : Generator :=
  GenCreated input_file_or_list config mode tokenizer.

(** Lines 147-150: a path is read as lines, a list is used as it is. *)
Definition serving_inputs (input_file_or_list : FileOrList string)
    (fs : FileSystem) : result (list string) :=
  match input_file_or_list with
  | FilePath path => open_readlines path fs
  | InList items => Ok items
  end.

(** Lines 152-153: the tokenizer is built unless one was passed. *)
Definition serving_tokenizer (config : Params) (tokenizer : option Tokenizer)
    (fs : FileSystem) : result Tokenizer :=
  match tokenizer with
  | None => FullTokenizer (vocab_file config) fs
  | Some t => Ok t
  end.

(** [next(gen)]: [Some l] is a yielded reference, [None] is
    [StopIteration].  The first call runs lines 147-155 (read the input,
    build the tokenizer, allocate [data_dict = {}]) before entering the
    loop. *)
Definition gen_next (g : Generator) (fs : FileSystem) (h : Heap)
    : result (option loc * Generator * Heap) :=
  match g with
  | GenCreated input_file_or_list config mode tokenizer =>
      inputs ← serving_inputs input_file_or_list fs;
      tokenizer ← serving_tokenizer config tokenizer fs;
      let data_dict := fresh (dom h) in
      let h := <[data_dict := ∅]> h in
      serving_loop config tokenizer data_dict inputs h
  | GenSuspended config tokenizer data_dict rest =>
      serving_loop config tokenizer data_dict rest h
  | GenClosed => Ok (None, GenClosed, h)
  end.

(** A consumer that iterates the generator to its end ([for d in gen])
    and keeps every yielded reference together with the content the
    dictionary had when it was yielded.  [None] means [fuel] calls of
    [next] were not enough. *)
Fixpoint consume (fuel : nat) (g : Generator) (fs : FileSystem) (h : Heap)
    : option (result (list (loc * FeatureDict) * Heap)) :=
  match fuel with
  | O => None
  | S fuel =>
      match gen_next g fs h with
      | Raise e => Some (Raise e)
      | Ok (None, _, h) => Some (Ok ([], h))
      | Ok (Some l, g, h) =>
          match consume fuel g fs h with
          | Some (Ok (ys, h')) => Some (Ok ((l, deref h l) :: ys, h'))
          | other => other
          end
      end
  end.

End Serving.

(** The input lines that are not the empty string. *)
Definition non_empty_lines (inputs : list string) : list string :=
  filter (fun line => line <> "") inputs.

(** ** Collaborators modelled from the specification

    The sibling modules that input_fn.py imports are not part of the
    sources at hand.  The definitions of this module follow what the
    specification says about them; they give the class [Collaborators] an
    inhabitant on which the pipelines can be run. *)

(** [for x in l: ...] with a body that may raise: the results in order, or
    the first exception. *)
Fixpoint mapM {A B} (f : A -> result B) (l : list A) : result (list B) :=
  match l with
  | [] => Ok []
  | x :: rest => y ← f x; ys ← mapM f rest; Ok (y :: ys)
  end.

(** A loop that threads a state through a body that may raise. *)
Fixpoint foldM {A S} (f : S -> A -> result S) (s : S) (l : list A)
    : result S :=
  match l with
  | [] => Ok s
  | x :: rest => s ← f s x; foldM f s rest
  end.

Module Modelled.

(** Modelled from the spec: part of the tokenizer model, the blank
    characters (space, tab, line feed, carriage return). *)
Definition is_blank (c : ascii) : bool :=
  let n := nat_of_ascii c in
  (n =? 32)%nat || (n =? 9)%nat || (n =? 10)%nat || (n =? 13)%nat.

(** Modelled from the spec: part of the [cluster_alphnum] model, the
    letters and digits of "alphanumeric runs". *)
Definition is_alphnum (c : ascii) : bool :=
  let n := nat_of_ascii c in
  ((48 <=? n)%nat && (n <=? 57)%nat)
  || ((65 <=? n)%nat && (n <=? 90)%nat)
  || ((97 <=? n)%nat && (n <=? 122)%nat).

(** Modelled from the spec: part of the tokenizer and clustering models,
    the piece collected so far, if any. *)
Definition flush (cur : string) : list string :=
  match cur with EmptyString => [] | _ => [cur] end.

(** Modelled from the spec: part of the tokenizer and clustering models,
    one more character on the piece being collected. *)
Definition snoc_char (cur : string) (c : ascii) : string :=
  String.append cur (String c EmptyString).

(** Modelled from the spec: the tokenizer's text-to-tokens half
    (bert_preprocessing.tokenization is absent), "maps raw text to token
    sequences": the text is cut at blanks. *)
Fixpoint split_blanks (cur : string) (text : string) : list string :=
  match text with
  | EmptyString => flush cur
  | String c rest =>
      if is_blank c then (flush cur ++ split_blanks "" rest)%list
      else split_blanks (snoc_char cur c) rest
  end.

(** Modelled from the spec: the tokenizer's tokens-to-ids half, "to integer
    ids given a vocabulary file": the id of a token is its position in the
    vocabulary; a token outside the vocabulary raises [KeyError]. *)
Fixpoint vocab_id (vocab : list string) (next : Z) (token : string)
    : result Z :=
  match vocab with
  | [] => Raise (KeyError token)
  | w :: rest =>
      if String.eqb w token then Ok next
      else vocab_id rest (next + 1)%Z token
  end.

(** Modelled from the spec: the tokenizer object (absent), both halves
    over one vocabulary. *)
Definition vocab_tokenizer (vocab : list string) : Tokenizer :=
  {| tokenize := fun text => Ok (split_blanks "" text);
     convert_tokens_to_ids := mapM (vocab_id vocab 0%Z) |}.

(** Modelled from the spec: part of the [FullTokenizer] model, a line of
    the vocabulary file without its terminator. *)
Fixpoint drop_newlines (line : string) : string :=
  match line with
  | EmptyString => EmptyString
  | String c rest =>
      if Ascii.eqb c newline then drop_newlines rest
      else String c (drop_newlines rest)
  end.

(** Modelled from the spec: [FullTokenizer(vocab_file)] (absent), a
    tokenizer "given a vocabulary file"; "malformed or missing vocabulary
    ... files raise from the file-system layer".  The vocabulary holds one
    token per line of the file. *)
Definition FullTokenizer (vocab_file : string) (fs : FileSystem)
    : result Tokenizer :=
  lines ← open_readlines vocab_file fs;
  Ok (vocab_tokenizer (drop_newlines <$> (lines : list string))).

(** Modelled from the spec: [cluster_alphnum] (utils is absent), "cluster
    alphanumeric runs": consecutive letters and digits form one piece,
    every other character is a piece of its own. *)
Fixpoint cluster_from (cur : string) (text : string) : list string :=
  match text with
  | EmptyString => flush cur
  | String c rest =>
      if is_alphnum c then cluster_from (snoc_char cur c) rest
      else (flush cur ++ String c EmptyString :: cluster_from "" rest)%list
  end.

(** Modelled from the spec: [cluster_alphnum] (absent), the pieces of the
    whole text. *)
Definition cluster_alphnum (text : string) : result (list string) :=
  Ok (cluster_from "" text).

(** Modelled from the spec: [tokenize_text_with_seqs] (bert_utils is
    absent), "tokenize": every piece is tokenized, the target is carried
    along unchanged. *)
Definition tokenize_text_with_seqs (tokenizer : Tokenizer)
    (inputs_a : list string) (target : Target)
    : result (list string * Target) :=
  pieces ← mapM (tokenize tokenizer) inputs_a;
  Ok (concat pieces, target).

(** Modelled from the spec: [truncate_seq_pair] (absent), "truncate to max
    length": tokens are dropped from the end so that the sequence with its
    special tokens does not exceed the maximum length. *)
Definition truncate_seq_pair (tokens_a : list string)
    (tokens_b : option (list string)) (target : Target) (max_length : Z)
    : result (list string * option (list string) * Target) :=
  match tokens_b with
  | None => Ok (take (Z.to_nat (max_length - 2)) tokens_a, None, target)
  | Some b =>
      let a := take (Z.to_nat (max_length - 3)) tokens_a in
      Ok (a, Some (take (Z.to_nat (max_length - 3) - length a) b), target)
  end.

(** Modelled from the spec: [add_special_tokens_with_seqs] (absent),
    "insert special tokens": a classifier token in front, a separator after
    each segment; segment ids tell the segments apart. *)
Definition add_special_tokens_with_seqs (tokens_a : list string)
    (tokens_b : option (list string)) (target : Target)
    : result (list string * list Z * Target) :=
  let first := ("[CLS]" :: tokens_a ++ ["[SEP]"])%list in
  match tokens_b with
  | None => Ok (first, replicate (length first) 0%Z, target)
  | Some b =>
      let second := (b ++ ["[SEP]"])%list in
      Ok ((first ++ second)%list,
          (replicate (length first) 0%Z ++ replicate (length second) 1%Z)%list,
          target)
  end.

(** Modelled from the spec: [create_mask_and_padding] (absent),
    "pad/mask": the mask is one on tokens and zero on padding; tokens,
    mask and segment ids are padded to the maximum length. *)
Definition create_mask_and_padding (tokens : list string)
    (segment_ids : list Z) (target : Target) (max_length : Z)
    : result (list Z * list string * list Z * Target) :=
  let pad := (Z.to_nat max_length - length tokens)%nat in
  Ok ((replicate (length tokens) 1%Z ++ replicate pad 0%Z)%list,
      (tokens ++ replicate pad "[PAD]")%list,
      (segment_ids ++ replicate pad 0%Z)%list,
      target).

(** Modelled from the spec: the Feature Encoder on one text (or text
    pair), "produces fixed-shape feature dictionaries (input ids, input
    mask, segment ids ...) per example, applying truncation, special-token
    insertion, and padding". *)
Definition encode_text (params : Params) (tokenizer : Tokenizer)
    (text_a : string) (text_b : option string) : result FeatureDict :=
  pieces_a ← cluster_alphnum text_a;
  '(tokens_a, _) ← tokenize_text_with_seqs tokenizer pieces_a None;
  tokens_b ← match text_b with
             | None => Ok None
             | Some b =>
                 pieces_b ← cluster_alphnum b;
                 '(tokens_b, _) ←
                   tokenize_text_with_seqs tokenizer pieces_b None;
                 Ok (Some tokens_b)
             end;
  '(tokens_a, tokens_b, target) ←
    truncate_seq_pair tokens_a tokens_b None (max_seq_len params);
  '(tokens, segment_ids, target) ←
    add_special_tokens_with_seqs tokens_a tokens_b target;
  '(input_mask, tokens, segment_ids, target) ←
    create_mask_and_padding tokens segment_ids target (max_seq_len params);
  input_ids ← convert_tokens_to_ids tokenizer tokens;
  Ok (text_features input_ids input_mask segment_ids).

(** Modelled from the spec: part of the encoder model, the text stored
    under a key of a dictionary input. *)
Definition text_of (key : string) (d : gmap string InputValue)
    : result string :=
  v ← getitem d key;
  match v with
  | VText s => Ok s
  | VArray _ => Raise TypeError
  end.

(** Modelled from the spec: the standard text encoder on one example: a
    plain string, or a dictionary holding the text under ['a'] and an
    optional second text under ['b']. *)
Definition encode_example (params : Params) (tokenizer : Tokenizer)
    (example : InputElement) : result FeatureDict :=
  match example with
  | IStr s => encode_text params tokenizer s None
  | IDict d =>
      a ← text_of "a" d;
      b ← match d !! "b" with
          | None => Ok None
          | Some _ => b ← text_of "b" d; Ok (Some b)
          end;
      encode_text params tokenizer a b
  end.

(** Modelled from the spec: [create_bert_features] (absent), "the standard
    text feature encoder": one feature dictionary per example, in order. *)
Definition create_bert_features : FeatureEncoder :=
  fun problem label_encoder params tokenizer mode problem_type is_seq
      example_list =>
    mapM (encode_example params tokenizer) example_list.

(** Modelled from the spec: part of the multimodal encoder model, the
    feature of an array modality. *)
Definition array_feature (v : InputValue) : option Feature :=
  match v with
  | VArray a => Some (Vector a)
  | VText _ => None
  end.

(** Modelled from the spec: the multimodal encoder on one example, a
    dictionary of modalities: the text modality is encoded like a plain
    text, every array modality is kept as a feature of its own. *)
Definition encode_multimodal_example (params : Params) (tokenizer : Tokenizer)
    (example : InputElement) : result FeatureDict :=
  match example with
  | IStr _ => Raise TypeError
  | IDict d =>
      text ← match d !! "text" with
             | None => Ok ""
             | Some _ => text_of "text" d
             end;
      features ← encode_text params tokenizer text None;
      Ok (features ∪ omap array_feature d)
  end.

(** Modelled from the spec: [create_multimodal_bert_features] (absent),
    "a multimodal feature encoder": one feature dictionary per example. *)
Definition create_multimodal_bert_features : FeatureEncoder :=
  fun problem label_encoder params tokenizer mode problem_type is_seq
      example_list =>
    mapM (encode_multimodal_example params tokenizer) example_list.

(** Modelled from the spec: part of the [infer_shape_and_type_from_dict]
    model, the shape of one value with every dimension unknown. *)
Definition inferred_shape (t : Feature) : Shape :=
  match t with
  | Scalar _ => []
  | Vector _ => [None]
  end.

(** Modelled from the spec: [infer_shape_and_type_from_dict] (absent),
    "shape/type of the first encoded example is introspected": every
    feature is an integer tensor of the rank of its value, with dimensions
    of unknown size. *)
Definition infer_shape_and_type_from_dict (example : FeatureDict)
    : result (gmap string Shape * gmap string DType) :=
  Ok (inferred_shape <$> example, (fun _ => tf_int32) <$> example).

Section RecordFiles.
(** The encoded examples of a task, as the Feature Encoder produces them
    from the task's data, and the validity check on a persisted file. *)
Variable task_examples : Params -> string -> result (list FeatureDict).
Variable records_valid : list FeatureDict -> bool.

(** Modelled from the spec: the Record Writer on one task, "persists
    encoded examples ... per task", "a no-op if records already exist and
    are valid". *)
Definition write_problem (params : Params) (store : RecordStore)
    (problem : string) : result RecordStore :=
  let rewrite_records :=
    examples ← task_examples params problem;
    Ok (<[problem := examples]> store) in
  match store !! problem with
  | Some examples =>
      if records_valid examples then Ok store else rewrite_records
  | None => rewrite_records
  end.

(** Modelled from the spec: [write_tfrecord] (read_write_tfrecord is
    absent), "ensures persisted records exist for all configured tasks". *)
Definition write_tfrecord (params : Params) (store : RecordStore)
    : result RecordStore :=
  foldM (write_problem params) store (problem_list params).

(** Modelled from the spec: [read_tfrecord] (absent), "reconstructs
    per-task datasets" from the persisted records: one dataset per
    configured task, keyed by the task name. *)
Definition read_tfrecord (params : Params) (mode : string)
    (store : RecordStore) : result (list (string * Dataset)) :=
  mapM (fun problem =>
          match store !! problem with
          | Some _ => Ok (problem, TFRecordDataset [problem])
          | None => Raise (FileNotFoundError problem)
          end)
       (problem_list params).

(** Modelled from the spec: the collaborators of input_fn.py, assembled
    from the definitions above. *)
Definition collaborators : Collaborators :=
  Build_Collaborators
    FullTokenizer
    tokenize_text_with_seqs
    truncate_seq_pair
    add_special_tokens_with_seqs
    create_mask_and_padding
    create_bert_features
    create_multimodal_bert_features
    write_tfrecord
    read_tfrecord
    cluster_alphnum
    infer_shape_and_type_from_dict.

End RecordFiles.

End Modelled.

(** ** Sample data

    A small vocabulary, configuration and file system on which the
    pipelines are run. *)

Module Sample.

Definition lines_to_text (lines : list string) : string :=
  String.concat "" ((fun l => String.append l (String newline "")) <$> lines).

Definition vocab_text : string :=
  lines_to_text ["[PAD]"; "[CLS]"; "[SEP]"; "hello"; "world"].

Definition fs : FileSystem :=
  <["vocab.txt" := vocab_text]>
    (<["input.txt" := lines_to_text ["hello world"; "world"]]>
       (<["empty.txt" := ""]> ∅)).

Definition config : Params :=
  {| vocab_file := "vocab.txt";
     batch_size := 2;
     shuffle_buffer := 100;
     dynamic_padding := false;
     bucket_batch_sizes := [4; 2]%Z;
     bucket_boundaries := [8]%Z;
     max_seq_len := 5;
     problem_list := ["ner"] |}.

Definition tokenizer : Tokenizer :=
  Modelled.vocab_tokenizer ["[PAD]"; "[CLS]"; "[SEP]"; "hello"; "world"].

Definition examples : list FeatureDict :=
  [text_features [1; 3; 2]%Z [1; 1; 1]%Z [0; 0; 0]%Z].

Definition task_examples (params : Params) (problem : string)
    : result (list FeatureDict) :=
  Ok examples.

(** The record store once the records of the configured task are written,
    and the per-task datasets read back from it. *)
Definition written_store : RecordStore := <["ner" := examples]> ∅.

Definition dataset_dict : list (string * Dataset) :=
  [("ner", TFRecordDataset ["ner"])].

Definition records_valid (examples : list FeatureDict) : bool :=
  bool_decide (examples <> []).

Definition collaborators : Collaborators :=
  Modelled.collaborators task_examples records_valid.

(** Two plain strings and their encodings under [config]. *)
Definition two_strings : list InputElement :=
  [IStr "hello world"; IStr "world"].

Definition two_encoded : list FeatureDict :=
  [text_features [1; 3; 4; 2; 0]%Z [1; 1; 1; 1; 0]%Z [0; 0; 0; 0; 0]%Z;
   text_features [1; 4; 2; 0; 0]%Z [1; 1; 1; 0; 0]%Z [0; 0; 0; 0; 0]%Z].

(** A multimodal input: a dictionary without the key ['a']. *)
Definition image_input : InputElement :=
  IDict (<["image" := VArray [7; 8]%Z]> ∅).

End Sample.

(** ** The serving input receiver *)

(** [tf.placeholder(dtype, shape)]: a graph input of a declared type and
    static shape. *)
Record Placeholder : Type := {
  ph_dtype : DType;
  ph_shape : Shape
}.

Definition tf_placeholder (dtype : DType) (shape : Shape) : Placeholder :=
  {| ph_dtype := dtype; ph_shape := shape |}.

(** [tf.estimator.export.ServingInputReceiver(features, receiver_tensors)]. *)
Record ServingInputReceiver : Type := {
  receiver_features : gmap string Placeholder;
  receiver_tensors : gmap string Placeholder
}.

(** [serving_input_fn], input_fn.py lines 177-183: the same dictionary of
    three placeholders is passed as features and as receiver tensors. *)
Definition serving_input_fn : ServingInputReceiver :=
  let features : gmap string Placeholder :=
    <["input_ids" := tf_placeholder tf_int32 [None; None]]>
      (<["input_mask" := tf_placeholder tf_int32 [None; None]]>
         (<["segment_ids" := tf_placeholder tf_int32 [None; None]]> ∅)) in
  {| receiver_features := features; receiver_tensors := features |}.

(** ** Vocabulary of the further properties *)

(** Batches cut from a stream: every batch but the last holds exactly [n]
    elements, the last one between 1 and [n]. *)
Fixpoint full_but_last {A} (n : nat) (batches : list (list A)) : Prop :=
  match batches with
  | [] => True
  | b :: rest =>
      match rest with
      | [] => 0 < length b <= n
      | _ :: _ => length b = n /\ full_but_last n rest
      end
  end.

Section ServingObserved.
Context `{Collaborators}.

(** A consumer that iterates the generator inside [try ... except],
    copying every dictionary when it is yielded: what was yielded, in
    order, and how the iteration ended ([None] for [StopIteration],
    [Some e] for the exception [e]).  The outer [None] means [fuel] calls
    of [next] were not enough. *)
Fixpoint consume_observed (fuel : nat) (g : Generator) (fs : FileSystem)
    (h : Heap) : option (list (loc * FeatureDict) * option exn) :=
  match fuel with
  | O => None
  | S fuel =>
      match gen_next g fs h with
      | Raise e => Some ([], Some e)
      | Ok (None, _, _) => Some ([], None)
      | Ok (Some l, g, h) =>
          match consume_observed fuel g fs h with
          | Some (ys, ending) => Some ((l, deref h l) :: ys, ending)
          | None => None
          end
      end
  end.

End ServingObserved.

(** A generator that has run at least once. *)
Definition gen_started (g : Generator) : Prop :=
  match g with
  | GenCreated _ _ _ _ => False
  | GenSuspended _ _ _ _ | GenClosed => True
  end.

(** A line of a text file as [readlines] returns it: characters other
    than the line feed and the carriage return, followed by at most one
    line feed, and not empty. *)
Definition raw_line (line : string) : Prop :=
  line <> EmptyString /\
  exists body,
    (forall c, c ∈ list_ascii_of_string body ->
               c <> newline /\ c <> carriage_return) /\
    (line = body \/ line = String.append body (String newline EmptyString)).

(** Further sample data. *)
Module Cases.

Definition dynamic_config : Params :=
  {| vocab_file := "vocab.txt";
     batch_size := 2;
     shuffle_buffer := 100;
     dynamic_padding := true;
     bucket_batch_sizes := [4; 2]%Z;
     bucket_boundaries := [8]%Z;
     max_seq_len := 5;
     problem_list := ["ner"] |}.

(** Collaborators whose record writer fails: the data of a task cannot be
    found. *)
Definition missing_task_examples (params : Params) (problem : string)
    : result (list FeatureDict) :=
  Raise (FileNotFoundError problem).

Definition failing_collaborators : Collaborators :=
  Modelled.collaborators missing_task_examples Sample.records_valid.

(** Three plain strings and their encodings under [Sample.config]. *)
Definition three_strings : list InputElement :=
  [IStr "hello world"; IStr "world"; IStr "hello"].

Definition three_encoded : list FeatureDict :=
  [text_features [1; 3; 4; 2; 0]%Z [1; 1; 1; 1; 0]%Z [0; 0; 0; 0; 0]%Z;
   text_features [1; 4; 2; 0; 0]%Z [1; 1; 1; 0; 0]%Z [0; 0; 0; 0; 0]%Z;
   text_features [1; 3; 2; 0; 0]%Z [1; 1; 1; 0; 0]%Z [0; 0; 0; 0; 0]%Z].

(** The structure inferred from the first encoded record. *)
Definition encoded_shapes : gmap string Shape :=
  Modelled.inferred_shape
    <$> text_features [1; 3; 4; 2; 0]%Z [1; 1; 1; 1; 0]%Z [0; 0; 0; 0; 0]%Z.

Definition encoded_types : gmap string DType :=
  (fun _ => tf_int32)
    <$> text_features [1; 3; 4; 2; 0]%Z [1; 1; 1; 1; 0]%Z [0; 0; 0; 0; 0]%Z.

End Cases.

(** ** Properties *)

(** C5. For a record whose ['input_ids'] field is a sequence of length L,
    [element_length_func] returns L; the result is a function of the
    ['input_ids'] field alone, so two records that agree on this field give
    the same result whatever else they contain. *)
Theorem element_length_func_returns_length :
  forall (yield_dict : FeatureDict) (ids : list Z),
    yield_dict !! "input_ids" = Some (Vector ids) ->
    element_length_func yield_dict = Ok (Z.of_nat (length ids))
    /\ (forall other : FeatureDict,
          other !! "input_ids" = yield_dict !! "input_ids" ->
          element_length_func other = element_length_func yield_dict).
Proof.
  intros yield_dict ids Hids. split.
  - unfold element_length_func, getitem. rewrite Hids. reflexivity.
  - intros other Hsame. unfold element_length_func, getitem.
    rewrite Hsame. reflexivity.
Qed.

Lemma element_length_func_returns_length_witness :
  element_length_func (text_features [1; 3; 2]%Z [1; 1; 1]%Z [0; 0; 0]%Z)
  = Ok 3%Z.
Proof.
  destruct (element_length_func_returns_length
              (text_features [1; 3; 2]%Z [1; 1; 1]%Z [0; 0; 0]%Z)
              [1; 3; 2]%Z) as [Hlength _].
  - reflexivity.
  - exact Hlength.
Defined.

(** *** The train and eval pipeline *)

Section TrainEvalProperties.
Context `{Collaborators}.

(** The pipeline that [train_eval_input_fn] builds once the records are
    written and read back. *)
Lemma train_eval_input_fn_pipeline params mode store store' dataset_dict :
  write_tfrecord params store = Ok store' ->
  read_tfrecord params mode store' = Ok dataset_dict ->
  dataset_dict <> [] ->
  (dynamic_padding params = true ->
   length (bucket_batch_sizes params) = S (length (bucket_boundaries params))) ->
  let combined := SampleFromDatasets (map snd dataset_dict) in
  let shuffled :=
    if String.eqb mode "train" then Shuffle (shuffle_buffer params) combined
    else combined in
  let prefetched := Prefetch AUTOTUNE shuffled in
  train_eval_input_fn params mode store =
    Ok (if dynamic_padding params
        then BucketBySequenceLength element_length_func
               (bucket_boundaries params) (bucket_batch_sizes params)
               prefetched
        else if String.eqb mode "train"
             then Batch (batch_size params) prefetched
             else Batch (batch_size params * 2) prefetched,
        store').
Proof.
  intros Hwrite Hread Hne Hbuckets. unfold train_eval_input_fn.
  rewrite Hwrite. simpl. rewrite Hread. simpl.
  destruct dataset_dict as [|entry entries]; [congruence|]. simpl.
  destruct (dynamic_padding params) eqn:Hdyn.
  - unfold bucket_by_sequence_length.
    rewrite decide_True by (apply Hbuckets; reflexivity). reflexivity.
  - destruct (String.eqb mode "train"); reflexivity.
Qed.

(** C1. With [dynamic_padding=False], [train_eval_input_fn] ends its
    pipeline with one fixed-size batch step and applies no other: its size
    is [batch_size] in ['train'] mode and exactly [batch_size*2], twice the
    training size, in any other mode. *)
Theorem train_eval_fixed_batch_size :
  forall params mode store store' dataset_dict,
    dynamic_padding params = false ->
    write_tfrecord params store = Ok store' ->
    read_tfrecord params mode store' = Ok dataset_dict ->
    dataset_dict <> [] ->
    exists n upstream,
      train_eval_input_fn params mode store = Ok (Batch n upstream, store')
      /\ fixed_batch_sizes (Batch n upstream) = [n]
      /\ (mode = "train" -> n = batch_size params)
      /\ (mode <> "train" -> n = (2 * batch_size params)%Z).
Proof.
  intros params mode store store' dataset_dict Hdyn Hwrite Hread Hne.
  pose proof (train_eval_input_fn_pipeline params mode store store'
                dataset_dict Hwrite Hread Hne) as Hpipe.
  rewrite Hdyn in Hpipe. simpl in Hpipe.
  specialize (Hpipe ltac:(discriminate)).
  destruct (String.eqb_spec mode "train") as [Htrain|Hother].
  - eexists. eexists. split; [exact Hpipe|]. split; [reflexivity|].
    split; [reflexivity | congruence].
  - eexists. eexists. split; [exact Hpipe|]. split; [reflexivity|].
    split; [congruence | intros _; lia].
Qed.

(** C6. [train_eval_input_fn] shuffles the combined dataset, with buffer
    size [params.shuffle_buffer], exactly when the mode is ['train']; in
    any other mode no shuffle step is applied; a prefetch step with the
    auto-tuned buffer follows in every mode, before the batching step. *)
Theorem train_eval_shuffle_only_in_train :
  forall params mode store store' dataset_dict,
    write_tfrecord params store = Ok store' ->
    read_tfrecord params mode store' = Ok dataset_dict ->
    dataset_dict <> [] ->
    (dynamic_padding params = true ->
     length (bucket_batch_sizes params) =
       S (length (bucket_boundaries params))) ->
    exists dataset batching,
      train_eval_input_fn params mode store = Ok (dataset, store')
      /\ pipeline_input dataset = SampleFromDatasets (map snd dataset_dict)
      /\ transformations dataset =
           ((if String.eqb mode "train"
             then [TShuffle (shuffle_buffer params)] else [])
            ++ [TPrefetch AUTOTUNE; batching])%list
      /\ shuffle_buffers dataset =
           (if String.eqb mode "train" then [shuffle_buffer params] else [])
      /\ (shuffle_buffers dataset <> [] <-> mode = "train")
      /\ prefetch_buffers dataset = [AUTOTUNE].
Proof.
  intros params mode store store' dataset_dict Hwrite Hread Hne Hbuckets.
  pose proof (train_eval_input_fn_pipeline params mode store store'
                dataset_dict Hwrite Hread Hne Hbuckets) as Hpipe.
  simpl in Hpipe. rewrite Hpipe. clear Hpipe.
  destruct (dynamic_padding params);
    destruct (String.eqb_spec mode "train") as [Htrain|Hother];
    eexists; eexists; (split; [reflexivity|]);
    (split; [reflexivity|]); (split; [reflexivity|]);
    (split; [reflexivity|]); (split; [|reflexivity]);
    unfold shuffle_buffers; simpl; split; congruence.
Qed.

End TrainEvalProperties.

Lemma train_eval_fixed_batch_size_witness :
  exists upstream,
    @train_eval_input_fn Sample.collaborators Sample.config "eval" ∅ =
      Ok (Batch 4 upstream, Sample.written_store).
Proof.
  destruct (@train_eval_fixed_batch_size Sample.collaborators
              Sample.config "eval" ∅ Sample.written_store
              Sample.dataset_dict) as (n & upstream & Hrun & _ & _ & Heval).
  - reflexivity.
  - reflexivity.
  - reflexivity.
  - discriminate.
  - exists upstream. rewrite Hrun, Heval by discriminate. reflexivity.
Defined.

Lemma train_eval_shuffle_only_in_train_witness :
  exists dataset,
    @train_eval_input_fn Sample.collaborators Sample.config "train" ∅ =
      Ok (dataset, Sample.written_store)
    /\ shuffle_buffers dataset = [100%Z].
Proof.
  destruct (@train_eval_shuffle_only_in_train Sample.collaborators
              Sample.config "train" ∅ Sample.written_store
              Sample.dataset_dict)
    as (dataset & batching & Hrun & _ & _ & Hshuffle & _).
  - reflexivity.
  - reflexivity.
  - discriminate.
  - discriminate.
  - exists dataset. split; [exact Hrun | exact Hshuffle].
Defined.

(** *** The predict pipeline *)

Lemma bind_Ok {A B} (m : result A) (f : A -> result B) (b : B) :
  m ≫= f = Ok b <-> exists a, m = Ok a /\ f a = Ok b.
Proof.
  destruct m as [a|e]; simpl; split.
  - intros Hf. exists a. split; [reflexivity | exact Hf].
  - intros (a' & Ha & Hf). inversion Ha. subst a'. exact Hf.
  - discriminate.
  - intros (a' & Ha & _). discriminate.
Qed.

Lemma string_append_cons (x : ascii) (a b : string) :
  String.append (String x a) b = String x (String.append a b).
Proof. reflexivity. Qed.

Lemma string_append_nil_r (a : string) : String.append a "" = a.
Proof.
  induction a as [|x a IH]; [reflexivity|].
  rewrite string_append_cons, IH. reflexivity.
Qed.

Lemma string_append_assoc (a b c : string) :
  String.append (String.append a b) c = String.append a (String.append b c).
Proof.
  induction a as [|x a IH]; [reflexivity|].
  rewrite !string_append_cons, IH. reflexivity.
Qed.

Lemma string_append_nil_l (a : string) : String.append "" a = a.
Proof. reflexivity. Qed.

Lemma concat_cons_cons (x y : string) (l : list string) :
  String.concat "" (x :: y :: l)
  = String.append x (String.concat "" (y :: l)).
Proof. reflexivity. Qed.

Lemma readlines_from_concat content :
  forall cur,
    String.concat "" (readlines_from cur content) = String.append cur content.
Proof.
  induction content as [|c rest IH]; intros cur.
  - destruct cur; cbn [readlines_from String.concat].
    + reflexivity.
    + rewrite string_append_nil_r. reflexivity.
  - cbn [readlines_from]. destruct (Ascii.eqb c newline).
    + specialize (IH ""). rewrite string_append_nil_l in IH.
      destruct (readlines_from "" rest) as [|line lines] eqn:Hlines.
      * cbn [String.concat] in *. subst rest. reflexivity.
      * rewrite concat_cons_cons, IH, string_append_assoc. reflexivity.
    + rewrite IH, string_append_assoc. reflexivity.
Qed.

(** The lines returned by [readlines], put end to end, are the content
    after newline translation. *)
Lemma readlines_concat content :
  String.concat "" (readlines content) = universal_newlines content.
Proof. unfold readlines. apply readlines_from_concat. Qed.

(** A line ends at its line feed. *)
Lemma readlines_from_line line rest :
  (forall c, c ∈ list_ascii_of_string line -> c <> newline) ->
  forall cur,
    readlines_from cur (String.append line (String newline rest))
    = String.append cur (String.append line (String newline ""))
      :: readlines_from "" rest.
Proof.
  induction line as [|c line IH]; intros Hline cur.
  - rewrite !string_append_nil_l. cbn [readlines_from].
    rewrite Ascii.eqb_refl. reflexivity.
  - rewrite !string_append_cons. cbn [readlines_from].
    destruct (Ascii.eqb_spec c newline) as [Heq|Hne].
    + exfalso. apply (Hline c); [|exact Heq].
      cbn [list_ascii_of_string]. apply list_elem_of_here.
    + rewrite IH.
      * rewrite string_append_assoc, string_append_cons,
          string_append_nil_l. reflexivity.
      * intros c' Hin. apply Hline.
        cbn [list_ascii_of_string]. apply list_elem_of_further. exact Hin.
Qed.

Lemma list_ascii_of_string_append (a b : string) :
  list_ascii_of_string (String.append a b)
  = (list_ascii_of_string a ++ list_ascii_of_string b)%list.
Proof.
  induction a as [|x a IH]; [reflexivity|].
  rewrite string_append_cons. simpl. rewrite IH. reflexivity.
Qed.

Lemma string_append_snoc_nonempty (a : string) (c : ascii) :
  String.append a (String c "") <> "".
Proof. destruct a; discriminate. Qed.

(** Newline translation, by cases on the first characters. *)
Lemma universal_newlines_unfold content :
  universal_newlines content =
  match content with
  | EmptyString => EmptyString
  | String c rest =>
      if Ascii.eqb c carriage_return
      then String newline
             match rest with
             | EmptyString => EmptyString
             | String c' rest' =>
                 if Ascii.eqb c' newline then universal_newlines rest'
                 else universal_newlines rest
             end
      else String c (universal_newlines rest)
  end.
Proof. destruct content; reflexivity. Qed.

(** Newline translation leaves no carriage return. *)
Lemma universal_newlines_no_cr :
  forall n content,
    String.length content <= n ->
    forall c, c ∈ list_ascii_of_string (universal_newlines content) ->
              c <> carriage_return.
Proof.
  induction n as [|n IH]; intros content Hlen c Hc.
  - destruct content; [inversion Hc | simpl in Hlen; lia].
  - destruct content as [|x rest]; [inversion Hc|].
    simpl in Hlen. rewrite universal_newlines_unfold in Hc.
    destruct (Ascii.eqb_spec x carriage_return) as [->|Hx].
    + cbn [list_ascii_of_string] in Hc.
      apply elem_of_cons in Hc as [->|Hc]; [discriminate|].
      destruct rest as [|y rest']; [inversion Hc|].
      simpl in Hlen. destruct (Ascii.eqb y newline).
      * apply (IH rest'); [lia | exact Hc].
      * apply (IH (String y rest')); [simpl; lia | exact Hc].
    + cbn [list_ascii_of_string] in Hc.
      apply elem_of_cons in Hc as [->|Hc]; [exact Hx|].
      apply (IH rest); [lia | exact Hc].
Qed.


Lemma universal_newlines_nil_inv content :
  universal_newlines content = "" -> content = "".
Proof.
  destruct content as [|x rest]; [reflexivity|].
  rewrite universal_newlines_unfold.
  destruct (Ascii.eqb x carriage_return); discriminate.
Qed.

Lemma readlines_nil_inv content : readlines content = [] -> content = "".
Proof.
  intros Hnil. apply universal_newlines_nil_inv.
  rewrite <- (readlines_concat content), Hnil. reflexivity.
Qed.

Lemma readlines_from_raw content :
  (forall c, c ∈ list_ascii_of_string content -> c <> carriage_return) ->
  forall cur,
    (forall c, c ∈ list_ascii_of_string cur ->
               c <> newline /\ c <> carriage_return) ->
    Forall raw_line (readlines_from cur content).
Proof.
  induction content as [|c rest IH]; intros Hfree cur Hcur.
  - destruct cur as [|x cur]; simpl; [constructor|].
    constructor; [|constructor]. split; [discriminate|].
    exists (String x cur). split; [exact Hcur | left; reflexivity].
  - assert (Hrest : forall x, x ∈ list_ascii_of_string rest ->
                              x <> carriage_return).
    { intros x Hx. apply Hfree.
      cbn [list_ascii_of_string]. apply list_elem_of_further. exact Hx. }
    assert (Hc : c <> carriage_return).
    { apply Hfree. cbn [list_ascii_of_string]. apply list_elem_of_here. }
    cbn [readlines_from]. destruct (Ascii.eqb_spec c newline) as [->|Hne].
    + constructor.
      * split; [apply string_append_snoc_nonempty|].
        exists cur. split; [exact Hcur | right; reflexivity].
      * apply IH; [exact Hrest|]. intros x Hx. inversion Hx.
    + apply IH; [exact Hrest|]. intros x Hx.
      rewrite list_ascii_of_string_append in Hx.
      apply elem_of_app in Hx as [Hx|Hx]; [apply Hcur; exact Hx|].
      simpl in Hx. apply elem_of_cons in Hx as [->|Hx];
        [split; assumption | inversion Hx].
Qed.

Lemma readlines_raw content : Forall raw_line (readlines content).
Proof.
  unfold readlines. apply readlines_from_raw.
  - apply (universal_newlines_no_cr (String.length content)). reflexivity.
  - intros c Hc. inversion Hc.
Qed.


Section PredictProperties.
Context `{Collaborators}.

(** [predict_input_fn] on a list, once the tokenizer is built. *)
Lemma predict_input_fn_list config mode fs tokenizer inputs :
  FullTokenizer (vocab_file config) fs = Ok tokenizer ->
  predict_input_fn (InList inputs) config mode fs =
    part_fn ← predict_part_fn config tokenizer mode inputs;
    predict_dataset config part_fn inputs.
Proof.
  intros Htok. unfold predict_input_fn. simpl. rewrite Htok. reflexivity.
Qed.

(** [predict_input_fn] on the path of a file that decodes is
    [predict_input_fn] on the lines of the file. *)
Lemma predict_input_fn_path config mode fs path content :
  fs !! path = Some content ->
  utf8_valid content = true ->
  predict_input_fn (FilePath path) config mode fs =
  predict_input_fn (InList (IStr <$> readlines content)) config mode fs.
Proof.
  intros Hfile Hvalid.
  unfold predict_input_fn, predict_inputs, open_readlines.
  rewrite Hfile, Hvalid. reflexivity.
Qed.

(** No dataset is ever returned for an empty list of inputs. *)
Lemma predict_input_fn_nil_not_ok config mode fs dataset :
  predict_input_fn (InList []) config mode fs <> Ok dataset.
Proof.
  unfold predict_input_fn. simpl.
  destruct (FullTokenizer (vocab_file config) fs); simpl; discriminate.
Qed.

(** C2. The encoder is chosen by the first input element alone: a dictionary
    without the key ['a'] selects [create_multimodal_bert_features], any
    other first element (a plain string, a dictionary with the key ['a'])
    selects [create_bert_features]; the selected encoder is the one that
    encodes the whole list of inputs. *)
Theorem predict_dispatch_on_first_element :
  forall config mode fs tokenizer first rest,
    FullTokenizer (vocab_file config) fs = Ok tokenizer ->
    let multimodal :=
      create_multimodal_bert_features "" None config tokenizer mode "cls"
        false in
    let standard :=
      create_bert_features "" None config tokenizer mode "cls" false in
    ((exists d, first = IDict d /\ d !! "a" = None) ->
     predict_part_fn config tokenizer mode (first :: rest) = Ok multimodal
     /\ predict_input_fn (InList (first :: rest)) config mode fs =
          predict_dataset config multimodal (first :: rest))
    /\ (~ (exists d, first = IDict d /\ d !! "a" = None) ->
        predict_part_fn config tokenizer mode (first :: rest) = Ok standard
        /\ predict_input_fn (InList (first :: rest)) config mode fs =
             predict_dataset config standard (first :: rest))
    /\ (forall rest',
          predict_part_fn config tokenizer mode (first :: rest') =
          predict_part_fn config tokenizer mode (first :: rest)).
Proof.
  intros config mode fs tokenizer first rest Htok multimodal standard.
  assert (Hcheck : is_dict_without_a first = true <->
                   exists d, first = IDict d /\ d !! "a" = None).
  { destruct first as [s|d]; simpl.
    - split; [discriminate|]. intros (d & Hd & _). discriminate.
    - rewrite bool_decide_eq_true. split.
      + intros Ha. exists d. split; [reflexivity | exact Ha].
      + intros (d' & Hd & Ha). inversion Hd. subst d'. exact Ha. }
  split; [|split].
  - intros Hdict. apply Hcheck in Hdict.
    assert (Hsel : predict_part_fn config tokenizer mode (first :: rest)
                   = Ok multimodal).
    { unfold predict_part_fn. simpl. rewrite Hdict. reflexivity. }
    split; [exact Hsel|].
    rewrite (predict_input_fn_list _ _ _ _ _ Htok), Hsel. reflexivity.
  - intros Hother.
    assert (Hfalse : is_dict_without_a first = false).
    { destruct (is_dict_without_a first) eqn:Hc; [|reflexivity].
      exfalso. apply Hother, Hcheck. reflexivity. }
    assert (Hsel : predict_part_fn config tokenizer mode (first :: rest)
                   = Ok standard).
    { unfold predict_part_fn. simpl. rewrite Hfalse. reflexivity. }
    split; [exact Hsel|].
    rewrite (predict_input_fn_list _ _ _ _ _ Htok), Hsel. reflexivity.
  - intros rest'. reflexivity.
Qed.

(** C9. A string argument is a path: the file is opened as UTF-8 text
    and read as its newline-delimited lines (every line terminator read as
    one line feed and kept, no character added or dropped otherwise), each
    line a plain-string input; a missing file or undecodable bytes raise.
    Anything else is the list itself.  In both cases the whole list of
    inputs is encoded by one call of the selected encoder before the
    dataset is built: an exception of the encoder is raised by
    [predict_input_fn] itself, and a returned dataset is a generator
    dataset over the complete list of encoded dictionaries. *)
Theorem predict_inputs_encoded_eagerly :
  forall config mode fs,
    (forall path content,
        fs !! path = Some content ->
        (utf8_valid content = true ->
         predict_inputs (FilePath path) fs = Ok (IStr <$> readlines content)
         /\ String.concat "" (readlines content) = universal_newlines content
         /\ Forall raw_line (readlines content)
         /\ predict_input_fn (FilePath path) config mode fs =
            predict_input_fn (InList (IStr <$> readlines content))
              config mode fs)
        /\ (utf8_valid content = false ->
            predict_input_fn (FilePath path) config mode fs
            = Raise UnicodeDecodeError))
    /\ (forall path,
          fs !! path = None ->
          predict_input_fn (FilePath path) config mode fs
          = Raise (FileNotFoundError path))
    /\ (forall inputs, predict_inputs (InList inputs) fs = Ok inputs)
    /\ (forall inputs tokenizer part_fn,
          FullTokenizer (vocab_file config) fs = Ok tokenizer ->
          predict_part_fn config tokenizer mode inputs = Ok part_fn ->
          (forall e, part_fn inputs = Raise e ->
                     predict_input_fn (InList inputs) config mode fs
                     = Raise e)
          /\ (forall dataset,
                predict_input_fn (InList inputs) config mode fs = Ok dataset ->
                exists data_list shapes types,
                  part_fn inputs = Ok data_list
                  /\ dataset =
                       PaddedBatch (batch_size config) shapes
                         (FromGenerator data_list types shapes))
          /\ (forall data_list first shapes types,
                part_fn inputs = Ok data_list ->
                first_item data_list = Ok first ->
                infer_shape_and_type_from_dict first = Ok (shapes, types) ->
                predict_input_fn (InList inputs) config mode fs =
                  Ok (PaddedBatch (batch_size config) shapes
                        (FromGenerator data_list types shapes)))).
Proof.
  intros config mode fs. split; [|split; [|split]].
  - intros path content Hfile. split.
    + intros Hvalid. split; [|split; [|split]].
      * unfold predict_inputs, open_readlines. rewrite Hfile, Hvalid.
        reflexivity.
      * apply readlines_concat.
      * apply readlines_raw.
      * apply predict_input_fn_path; assumption.
    + intros Hinvalid.
      unfold predict_input_fn, predict_inputs, open_readlines.
      rewrite Hfile, Hinvalid. reflexivity.
  - intros path Hmissing.
    unfold predict_input_fn, predict_inputs, open_readlines.
    rewrite Hmissing. reflexivity.
  - reflexivity.
  - intros inputs tokenizer part_fn Htok Hsel.
    rewrite (predict_input_fn_list _ _ _ _ _ Htok), Hsel. simpl.
    unfold predict_dataset. split; [|split].
    + intros e Hraise. rewrite Hraise. reflexivity.
    + intros dataset Hrun.
      apply bind_Ok in Hrun as (data_list & Hdata & Hrun).
      apply bind_Ok in Hrun as (first & _ & Hrun).
      apply bind_Ok in Hrun as ([shapes types] & _ & Hrun).
      inversion Hrun. subst dataset.
      exists data_list, shapes, types. split; [exact Hdata | reflexivity].
    + intros data_list first shapes types Hdata Hfirst Hinfer.
      rewrite Hdata. simpl. rewrite Hfirst. simpl. rewrite Hinfer.
      reflexivity.
Qed.

(** C10. For an empty list of inputs, and for a file without lines,
    [predict_input_fn] never returns a dataset; once the tokenizer is
    built, the exception is the [IndexError] of [inputs[0]]. *)
Theorem predict_empty_input_raises :
  forall config mode fs,
    (forall dataset, predict_input_fn (InList []) config mode fs <> Ok dataset)
    /\ (forall tokenizer,
          FullTokenizer (vocab_file config) fs = Ok tokenizer ->
          predict_input_fn (InList []) config mode fs = Raise IndexError)
    /\ (forall path,
          fs !! path = Some "" ->
          (forall dataset,
              predict_input_fn (FilePath path) config mode fs <> Ok dataset)
          /\ (forall tokenizer,
                FullTokenizer (vocab_file config) fs = Ok tokenizer ->
                predict_input_fn (FilePath path) config mode fs
                = Raise IndexError)).
Proof.
  intros config mode fs.
  assert (Hindex : forall tokenizer,
             FullTokenizer (vocab_file config) fs = Ok tokenizer ->
             predict_input_fn (InList []) config mode fs = Raise IndexError).
  { intros tokenizer Htok.
    rewrite (predict_input_fn_list _ _ _ _ _ Htok). reflexivity. }
  split; [|split].
  - intros dataset. apply predict_input_fn_nil_not_ok.
  - exact Hindex.
  - intros path Hfile.
    rewrite (predict_input_fn_path _ _ _ _ _ Hfile eq_refl).
    change (readlines "") with (@nil string). simpl. split.
    + intros dataset. apply predict_input_fn_nil_not_ok.
    + exact Hindex.
Qed.

End PredictProperties.

Lemma batch_elements_pair {A} (n : nat) (x y : A) :
  2 <= n -> batch_elements n [x; y] = [[x; y]].
Proof.
  intros Hn. unfold batch_elements. simpl.
  destruct (decide (1 = n)) as [Hone|_]; [lia|].
  destruct (decide (2 = n)); reflexivity.
Qed.

Lemma dom_text_features input_ids input_mask segment_ids :
  dom (text_features input_ids input_mask segment_ids) = text_feature_names.
Proof.
  unfold text_features, text_feature_names.
  rewrite !dom_insert_L, dom_empty_L. set_solver.
Qed.

Lemma dom_pad_record shapes batch (r : FeatureDict) :
  dom (pad_record shapes batch r) = dom r.
Proof.
  unfold pad_record. apply dom_imap_L. intros k. rewrite elem_of_dom.
  split.
  - intros [t Ht]. exists t. split; [exact Ht | eexists; reflexivity].
  - intros (t & Ht & _). exists t. exact Ht.
Qed.

(** What iterating the dataset of [predict_input_fn] produces when the
    selected encoder returns two dictionaries that match the structure
    inferred from the first one. *)
Lemma predict_two_records_one_batch `{Collaborators}
    config mode fs tokenizer part_fn x1 x2 r1 r2 shapes types :
  (2 <= batch_size config)%Z ->
  FullTokenizer (vocab_file config) fs = Ok tokenizer ->
  predict_part_fn config tokenizer mode [x1; x2] = Ok part_fn ->
  part_fn [x1; x2] = Ok [r1; r2] ->
  infer_shape_and_type_from_dict r1 = Ok (shapes, types) ->
  conforms types shapes r1 ->
  conforms types shapes r2 ->
  exists dataset,
    predict_input_fn (InList [x1; x2]) config mode fs = Ok dataset
    /\ forall batches,
         yields_batches dataset batches <->
         batches = [pad_batch shapes [r1; r2]].
Proof.
  intros Hsize Htok Hsel Hdata Hinfer Hr1 Hr2.
  exists (PaddedBatch (batch_size config) shapes
            (FromGenerator [r1; r2] types shapes)).
  split.
  - rewrite (predict_input_fn_list _ _ _ _ _ Htok), Hsel. simpl.
    unfold predict_dataset. rewrite Hdata. simpl. rewrite Hinfer.
    reflexivity.
  - assert (Hchunk :
      batch_elements (Z.to_nat (batch_size config)) [r1; r2] = [[r1; r2]]).
    { apply batch_elements_pair. lia. }
    intros batches. split.
    + intros Hyield. inversion Hyield as [|n sh d xs Hpos Hxs]; subst.
      inversion Hxs; subst. rewrite Hchunk. reflexivity.
    + intros ->.
      change [pad_batch shapes [r1; r2]]
        with (pad_batch shapes <$> [[r1; r2]]).
      rewrite <- Hchunk. constructor; [lia|].
      constructor. apply Forall_cons; split; [exact Hr1|].
      apply Forall_cons; split; [exact Hr2 | apply Forall_nil_2].
Qed.

(** The text encoder modelled from the specification returns a dictionary
    of exactly the three text features. *)
Lemma modelled_encode_text_features params tokenizer text_a text_b r :
  Modelled.encode_text params tokenizer text_a text_b = Ok r ->
  exists input_ids input_mask segment_ids,
    r = text_features input_ids input_mask segment_ids.
Proof.
  unfold Modelled.encode_text. intros Hrun.
  apply bind_Ok in Hrun as (pieces_a & _ & Hrun).
  apply bind_Ok in Hrun as ([tokens_a target_a] & _ & Hrun).
  apply bind_Ok in Hrun as (tokens_b & _ & Hrun).
  apply bind_Ok in Hrun as ([[ta tb] target] & _ & Hrun).
  apply bind_Ok in Hrun as ([[tokens segment_ids] target'] & _ & Hrun).
  apply bind_Ok in Hrun
    as ([[[input_mask tokens'] segment_ids'] target''] & _ & Hrun).
  apply bind_Ok in Hrun as (input_ids & _ & Hrun).
  inversion Hrun. eauto.
Qed.

Lemma conforms_text_features ids mask segs ids' mask' segs' :
  conforms ((fun _ => tf_int32) <$> text_features ids mask segs)
           (Modelled.inferred_shape <$> text_features ids mask segs)
           (text_features ids' mask' segs').
Proof.
  unfold conforms. rewrite !dom_fmap_L, !dom_text_features.
  split; [reflexivity|]. split; [reflexivity|].
  intros k t shape Ht Hshape. rewrite lookup_fmap in Hshape.
  unfold text_features in *.
  destruct (decide (k = "input_ids")) as [->|Hk1].
  { rewrite lookup_insert_eq in Ht, Hshape.
    inversion Ht. inversion Hshape. exact I. }
  rewrite lookup_insert_ne in Ht, Hshape by congruence.
  destruct (decide (k = "input_mask")) as [->|Hk2].
  { rewrite lookup_insert_eq in Ht, Hshape.
    inversion Ht. inversion Hshape. exact I. }
  rewrite lookup_insert_ne in Ht, Hshape by congruence.
  destruct (decide (k = "segment_ids")) as [->|Hk3].
  { rewrite lookup_insert_eq in Ht, Hshape.
    inversion Ht. inversion Hshape. exact I. }
  rewrite lookup_insert_ne in Ht by congruence.
  rewrite lookup_empty in Ht. discriminate.
Qed.

(** C7. With a batch size of at least 2, [predict_input_fn] on a list of
    exactly two plain strings returns a dataset whose iteration produces
    exactly one batch; the batch holds the two encoded records (padded),
    and the records have the same feature names. *)
Theorem predict_two_strings_one_batch :
  forall task_examples records_valid config mode fs tokenizer s1 s2
         data_list,
    (2 <= batch_size config)%Z ->
    Modelled.FullTokenizer (vocab_file config) fs = Ok tokenizer ->
    Modelled.create_bert_features "" None config tokenizer mode "cls" false
      [IStr s1; IStr s2] = Ok data_list ->
    exists dataset r1 r2 p1 p2,
      @predict_input_fn (Modelled.collaborators task_examples records_valid)
        (InList [IStr s1; IStr s2]) config mode fs = Ok dataset
      /\ data_list = [r1; r2]
      /\ (forall batches,
            yields_batches dataset batches <-> batches = [[p1; p2]])
      /\ [p1; p2] = pad_batch (Modelled.inferred_shape <$> r1) [r1; r2]
      /\ dom r1 = dom r2
      /\ dom p1 = dom p2
      /\ dom p1 = dom r1.
Proof.
  intros task_examples records_valid config mode fs tokenizer s1 s2
         data_list Hsize Htok Hdata.
  unfold Modelled.create_bert_features in Hdata. simpl in Hdata.
  apply bind_Ok in Hdata as (r1 & Hr1 & Hdata).
  apply bind_Ok in Hdata as (rest & Hrest & Hdata).
  apply bind_Ok in Hrest as (r2 & Hr2 & Hrest).
  inversion Hrest. subst rest. inversion Hdata. subst data_list.
  destruct (modelled_encode_text_features _ _ _ _ _ Hr1)
    as (ids1 & mask1 & segs1 & ->).
  destruct (modelled_encode_text_features _ _ _ _ _ Hr2)
    as (ids2 & mask2 & segs2 & ->).
  set (r1 := text_features ids1 mask1 segs1) in *.
  set (r2 := text_features ids2 mask2 segs2) in *.
  set (shapes := Modelled.inferred_shape <$> r1).
  destruct (@predict_two_records_one_batch
              (Modelled.collaborators task_examples records_valid)
              config mode fs tokenizer
              (Modelled.create_bert_features "" None config tokenizer mode
                 "cls" false)
              (IStr s1) (IStr s2) r1 r2 shapes
              ((fun _ => tf_int32) <$> r1))
    as (dataset & Hrun & Hbatches).
  - exact Hsize.
  - exact Htok.
  - reflexivity.
  - unfold Modelled.create_bert_features. simpl. rewrite Hr1. simpl.
    rewrite Hr2. reflexivity.
  - reflexivity.
  - apply conforms_text_features.
  - apply conforms_text_features.
  - exists dataset, r1, r2, (pad_record shapes [r1; r2] r1),
      (pad_record shapes [r1; r2] r2).
    split; [exact Hrun|]. split; [reflexivity|].
    split; [exact Hbatches|]. split; [reflexivity|].
    rewrite !dom_pad_record. unfold r1, r2. rewrite !dom_text_features.
    repeat split; reflexivity.
Qed.

Lemma predict_dispatch_on_first_element_witness :
  @predict_part_fn Sample.collaborators Sample.config Sample.tokenizer
    "predict" [Sample.image_input]
  = Ok (Modelled.create_multimodal_bert_features "" None Sample.config
          Sample.tokenizer "predict" "cls" false).
Proof.
  destruct (@predict_dispatch_on_first_element Sample.collaborators
              Sample.config "predict" Sample.fs Sample.tokenizer
              Sample.image_input []) as [Hmultimodal _].
  - reflexivity.
  - destruct Hmultimodal as [Hselected _].
    + eexists. split; reflexivity.
    + exact Hselected.
Defined.

Lemma predict_inputs_encoded_eagerly_witness :
  exists shapes types,
    @predict_input_fn Sample.collaborators (InList Sample.two_strings)
      Sample.config "predict" Sample.fs
    = Ok (PaddedBatch 2 shapes (FromGenerator Sample.two_encoded types shapes)).
Proof.
  destruct (@predict_inputs_encoded_eagerly Sample.collaborators
              Sample.config "predict" Sample.fs) as (_ & _ & _ & Hlist).
  destruct (Hlist Sample.two_strings Sample.tokenizer
              (Modelled.create_bert_features "" None Sample.config
                 Sample.tokenizer "predict" "cls" false))
    as (_ & _ & Hrun).
  - reflexivity.
  - reflexivity.
  - eexists. eexists. apply Hrun with (first := hd ∅ Sample.two_encoded).
    + reflexivity.
    + reflexivity.
    + reflexivity.
Defined.

Lemma predict_empty_input_raises_witness :
  @predict_input_fn Sample.collaborators (InList []) Sample.config
    "predict" Sample.fs = Raise IndexError
  /\ @predict_input_fn Sample.collaborators (FilePath "empty.txt")
       Sample.config "predict" Sample.fs = Raise IndexError.
Proof.
  destruct (@predict_empty_input_raises Sample.collaborators
              Sample.config "predict" Sample.fs) as (_ & Hlist & Hfile).
  split.
  - apply (Hlist Sample.tokenizer). reflexivity.
  - destruct (Hfile "empty.txt") as [_ Hindex].
    + reflexivity.
    + apply (Hindex Sample.tokenizer). reflexivity.
Defined.

Lemma predict_two_strings_one_batch_witness :
  exists dataset p1 p2,
    @predict_input_fn Sample.collaborators (InList Sample.two_strings)
      Sample.config "predict" Sample.fs = Ok dataset
    /\ (forall batches,
          yields_batches dataset batches <-> batches = [[p1; p2]])
    /\ dom p1 = dom p2.
Proof.
  destruct (predict_two_strings_one_batch Sample.task_examples
              Sample.records_valid Sample.config "predict" Sample.fs
              Sample.tokenizer "hello world" "world" Sample.two_encoded)
    as (dataset & r1 & r2 & p1 & p2 & Hrun & _ & Hbatches & _ & _ & Hdom & _).
  - simpl. lia.
  - reflexivity.
  - reflexivity.
  - exists dataset, p1, p2. split; [exact Hrun|].
    split; [exact Hbatches | exact Hdom].
Defined.

(** *** The serving generator *)

Lemma text_features_overwrite ids mask segs (d : FeatureDict) :
  dom d ⊆ text_feature_names ->
  <["segment_ids" := Vector segs]>
    (<["input_mask" := Vector mask]> (<["input_ids" := Vector ids]> d))
  = text_features ids mask segs.
Proof.
  intros Hdom. apply map_eq. intros k. unfold text_features.
  destruct (decide (k = "segment_ids")) as [->|Hk1].
  { rewrite lookup_insert_eq.
    rewrite !(lookup_insert_ne _ _ "segment_ids") by discriminate.
    rewrite lookup_insert_eq. reflexivity. }
  rewrite (lookup_insert_ne _ "segment_ids") by congruence.
  destruct (decide (k = "input_mask")) as [->|Hk2].
  { rewrite lookup_insert_eq.
    rewrite (lookup_insert_ne _ "input_ids") by discriminate.
    rewrite lookup_insert_eq. reflexivity. }
  rewrite (lookup_insert_ne _ "input_mask") by congruence.
  destruct (decide (k = "input_ids")) as [->|Hk3].
  { rewrite !lookup_insert_eq. reflexivity. }
  rewrite !lookup_insert_ne by congruence.
  rewrite lookup_empty. apply not_elem_of_dom. intros Hin.
  apply Hdom in Hin. unfold text_feature_names in Hin.
  rewrite !elem_of_union, !elem_of_singleton in Hin. tauto.
Qed.

Section ServingProperties.
Context `{Collaborators}.

Lemma store_features_lookup l ids mask segs (h : Heap) d :
  h !! l = Some d ->
  dom d ⊆ text_feature_names ->
  store_features l (ids, mask, segs) h !! l
  = Some (text_features ids mask segs).
Proof.
  intros Hl Hdom. unfold store_features, setitem.
  rewrite !lookup_alter_eq, Hl. simpl.
  rewrite text_features_overwrite by exact Hdom. reflexivity.
Qed.

(** The object [data_dict] is the one the generator yields at every step:
    the yielded content is the encoding of the current line, and after the
    last step the object holds the encoding of the last line. *)
Lemma consume_suspended config tokenizer fs l :
  forall rest (h : Heap) d,
    Forall (fun doc => is_ok (serving_features config tokenizer doc) = true)
           rest ->
    h !! l = Some d ->
    dom d ⊆ text_feature_names ->
    exists ys h',
      consume (S (length rest)) (GenSuspended config tokenizer l rest) fs h
      = Some (Ok (ys, h'))
      /\ Forall2
           (fun doc y =>
              y.1 = l /\
              exists ids mask segs,
                serving_features config tokenizer doc = Ok (ids, mask, segs)
                /\ y.2 = text_features ids mask segs)
           rest ys
      /\ (forall doc ids mask segs,
            last rest = Some doc ->
            serving_features config tokenizer doc = Ok (ids, mask, segs) ->
            h' !! l = Some (text_features ids mask segs)).
Proof.
  induction rest as [|doc rest IH]; intros h d Hok Hl Hdom.
  - exists [], h. split; [reflexivity|]. split; [constructor|].
    intros doc ids mask segs Hlast. discriminate.
  - apply Forall_cons in Hok as [Hdoc Hrest].
    destruct (serving_features config tokenizer doc)
      as [[[ids mask] segs]|e] eqn:Hfeat; [|discriminate].
    pose proof (store_features_lookup l ids mask segs h d Hl Hdom) as Hl1.
    destruct (IH (store_features l (ids, mask, segs) h)
                 (text_features ids mask segs) Hrest Hl1)
      as (ys & h' & Hrun & Hys & Hlast).
    { rewrite dom_text_features. reflexivity. }
    exists ((l, text_features ids mask segs) :: ys), h'.
    split; [|split].
    + change (length (doc :: rest)) with (S (length rest)).
      remember (S (length rest)) as fuel eqn:Hfuel.
      simpl. rewrite Hfeat. simpl.
      unfold store_features in Hrun, Hl1. rewrite Hrun.
      unfold deref. rewrite Hl1. reflexivity.
    + constructor; [|exact Hys]. split; [reflexivity|].
      exists ids, mask, segs. split; [exact Hfeat | reflexivity].
    + intros doc' ids' mask' segs' Hlast' Hfeat'.
      destruct rest as [|doc2 rest].
      * simpl in Hlast'. inversion Hlast'. subst doc'.
        rewrite Hfeat in Hfeat'. inversion Hfeat'. subst.
        simpl in Hrun. inversion Hrun. subst. exact Hl1.
      * apply (Hlast doc'); [exact Hlast' | exact Hfeat'].
Qed.

(** Consuming a freshly created generator: the first [next] reads the
    input, builds the tokenizer, allocates the dictionary and enters the
    loop. *)
Lemma consume_to_serving_input input config mode tokenizer fs (h : Heap)
    inputs tok :
  serving_inputs input fs = Ok inputs ->
  serving_tokenizer config tokenizer fs = Ok tok ->
  Forall (fun doc => is_ok (serving_features config tok doc) = true) inputs ->
  exists ys h' data_dict,
    consume (S (length inputs))
      (to_serving_input input config mode tokenizer) fs h
    = Some (Ok (ys, h'))
    /\ h !! data_dict = None
    /\ Forall2
         (fun doc y =>
            y.1 = data_dict /\
            exists ids mask segs,
              serving_features config tok doc = Ok (ids, mask, segs)
              /\ y.2 = text_features ids mask segs)
         inputs ys
    /\ (forall doc ids mask segs,
          last inputs = Some doc ->
          serving_features config tok doc = Ok (ids, mask, segs) ->
          h' !! data_dict = Some (text_features ids mask segs)).
Proof.
  intros Hinputs Htok Hok.
  set (l := fresh (dom h)).
  destruct (consume_suspended config tok fs l inputs (<[l := ∅]> h) ∅ Hok)
    as (ys & h' & Hrun & Hys & Hlast).
  { apply lookup_insert_eq. }
  { rewrite dom_empty_L. set_solver. }
  exists ys, h', l. split; [|split; [|split]].
  - rewrite <- Hrun. unfold to_serving_input.
    remember (length inputs) as n. simpl.
    rewrite Hinputs, Htok. reflexivity.
  - apply not_elem_of_dom. apply is_fresh.
  - exact Hys.
  - exact Hlast.
Qed.

(** C3 (amended). [to_serving_input] yields exactly one feature dictionary
    per input line, empty lines included, in order, provided the
    preprocessing of every line succeeds; each dictionary, when it is
    yielded, holds the encoding of its line under exactly the three keys
    ['input_ids'], ['input_mask'] and ['segment_ids']. *)
Theorem to_serving_input_one_dict_per_line :
  forall input config mode tokenizer fs (h : Heap) inputs tok,
    serving_inputs input fs = Ok inputs ->
    serving_tokenizer config tokenizer fs = Ok tok ->
    Forall (fun doc => is_ok (serving_features config tok doc) = true)
           inputs ->
    exists ys h',
      consume (S (length inputs))
        (to_serving_input input config mode tokenizer) fs h
      = Some (Ok (ys, h'))
      /\ length ys = length inputs
      /\ Forall2
           (fun doc y =>
              exists ids mask segs,
                serving_features config tok doc = Ok (ids, mask, segs)
                /\ y.2 = text_features ids mask segs)
           inputs ys
      /\ Forall
           (fun y =>
              dom y.2
              = ({["input_ids"; "input_mask"; "segment_ids"]} : gset string))
           ys.
Proof.
  intros input config mode tokenizer fs h inputs tok Hinputs Htok Hok.
  destruct (consume_to_serving_input input config mode tokenizer fs h
              inputs tok Hinputs Htok Hok)
    as (ys & h' & l & Hrun & _ & Hys & _).
  exists ys, h'. split; [exact Hrun|]. split; [|split].
  - symmetry. exact (Forall2_length _ _ _ Hys).
  - eapply Forall2_impl; [exact Hys|].
    intros doc y [_ Hy]. exact Hy.
  - clear - Hys. induction Hys as [|doc y docs ys Hy Hys IH].
    + constructor.
    + constructor; [|exact IH].
      destruct Hy as (_ & ids & mask & segs & _ & ->).
      apply dom_text_features.
Qed.

(** C4. [to_serving_input] yields the same dictionary object at every
    step and overwrites it in place: once the generator is consumed, each
    of the n yielded references holds the encoding of the last input
    line. *)
Theorem to_serving_input_reuses_one_dict :
  forall input config mode tokenizer fs (h : Heap) inputs tok last_doc,
    serving_inputs input fs = Ok inputs ->
    serving_tokenizer config tokenizer fs = Ok tok ->
    Forall (fun doc => is_ok (serving_features config tok doc) = true)
           inputs ->
    last inputs = Some last_doc ->
    exists ys h' data_dict ids mask segs,
      consume (S (length inputs))
        (to_serving_input input config mode tokenizer) fs h
      = Some (Ok (ys, h'))
      /\ length ys = length inputs
      /\ h !! data_dict = None
      /\ serving_features config tok last_doc = Ok (ids, mask, segs)
      /\ Forall
           (fun y =>
              y.1 = data_dict
              /\ deref h' y.1 = text_features ids mask segs)
           ys.
Proof.
  intros input config mode tokenizer fs h inputs tok last_doc
         Hinputs Htok Hok Hlast.
  destruct (consume_to_serving_input input config mode tokenizer fs h
              inputs tok Hinputs Htok Hok)
    as (ys & h' & l & Hrun & Hfresh & Hys & Hfinal).
  assert (Hdoc : is_ok (serving_features config tok last_doc) = true).
  { rewrite Forall_forall in Hok. apply Hok.
    apply last_Some in Hlast as [front ->]. set_solver. }
  destruct (serving_features config tok last_doc)
    as [[[ids mask] segs]|e] eqn:Hfeat; [|discriminate].
  exists ys, h', l, ids, mask, segs.
  split; [exact Hrun|]. split; [|split; [exact Hfresh|split]].
  - symmetry. exact (Forall2_length _ _ _ Hys).
  - reflexivity.
  - specialize (Hfinal last_doc ids mask segs Hlast Hfeat).
    clear - Hys Hfinal. induction Hys as [|doc y docs ys Hy Hys IH].
    + constructor.
    + constructor; [|exact IH].
      destruct Hy as [-> _]. split; [reflexivity|].
      unfold deref. rewrite Hfinal. reflexivity.
Qed.

End ServingProperties.

Lemma to_serving_input_one_dict_per_line_witness :
  exists ys h',
    @consume Sample.collaborators 3
      (to_serving_input (InList ["hello world"; "world"]) Sample.config
         "predict" None)
      Sample.fs ∅
    = Some (Ok (ys, h'))
    /\ length ys = 2.
Proof.
  destruct (@to_serving_input_one_dict_per_line Sample.collaborators
              (InList ["hello world"; "world"]) Sample.config "predict"
              None Sample.fs ∅ ["hello world"; "world"] Sample.tokenizer)
    as (ys & h' & Hrun & Hlength & _).
  - reflexivity.
  - reflexivity.
  - apply Forall_cons. split; [reflexivity|].
    apply Forall_cons. split; [reflexivity|]. apply Forall_nil_2.
  - exists ys, h'. split; [exact Hrun | exact Hlength].
Defined.

Lemma to_serving_input_reuses_one_dict_witness :
  exists ys h' data_dict,
    @consume Sample.collaborators 3
      (to_serving_input (InList ["hello world"; "world"]) Sample.config
         "predict" None)
      Sample.fs ∅
    = Some (Ok (ys, h'))
    /\ length ys = 2
    /\ Forall
         (fun y =>
            y.1 = data_dict
            /\ deref h' y.1
               = text_features [1; 4; 2; 0; 0]%Z [1; 1; 1; 0; 0]%Z
                   [0; 0; 0; 0; 0]%Z)
         ys.
Proof.
  destruct (@to_serving_input_reuses_one_dict Sample.collaborators
              (InList ["hello world"; "world"]) Sample.config "predict"
              None Sample.fs ∅ ["hello world"; "world"] Sample.tokenizer
              "world")
    as (ys & h' & l & ids & mask & segs & Hrun & Hlength & _ & Hfeat
        & Hall).
  - reflexivity.
  - reflexivity.
  - apply Forall_cons. split; [reflexivity|].
    apply Forall_cons. split; [reflexivity|]. apply Forall_nil_2.
  - reflexivity.
  - exists ys, h', l. split; [exact Hrun|]. split; [exact Hlength|].
    vm_compute in Hfeat. inversion Hfeat. subst ids mask segs.
    exact Hall.
Defined.

(** C3 as stated does not hold: for the list that holds one empty line the
    generator yields one dictionary, although no input line is
    non-empty. *)
Lemma to_serving_input_yields_for_empty_line :
  exists ys h',
    @consume Sample.collaborators 2
      (to_serving_input (InList [""]) Sample.config "predict"
         (Some Sample.tokenizer))
      Sample.fs ∅
    = Some (Ok (ys, h'))
    /\ length ys = 1
    /\ length (non_empty_lines [""]) = 0
    /\ length ys <> length (non_empty_lines [""]).
Proof.
  destruct (@consume_to_serving_input Sample.collaborators
              (InList [""]) Sample.config "predict"
              (Some Sample.tokenizer) Sample.fs ∅ [""] Sample.tokenizer)
    as (ys & h' & l & Hrun & _ & Hys & _).
  - reflexivity.
  - reflexivity.
  - apply Forall_cons. split; [reflexivity | apply Forall_nil_2].
  - apply Forall2_length in Hys. simpl in Hys.
    exists ys, h'. split; [exact Hrun|].
    split; [symmetry; exact Hys|]. split; [reflexivity|].
    rewrite <- Hys. discriminate.
Qed.

(** *** The record writer *)

Section RecordWriterProperties.
Variable task_examples : Params -> string -> result (list FeatureDict).
Variable records_valid : list FeatureDict -> bool.

Let write_problem := Modelled.write_problem task_examples records_valid.
Let write_tfrecord := Modelled.write_tfrecord task_examples records_valid.

(** A task whose records were just written needs no further writing. *)
Lemma write_problem_settled params (store store1 : RecordStore) problem :
  write_problem params store problem = Ok store1 ->
  write_problem params store1 problem = Ok store1.
Proof.
  unfold write_problem, Modelled.write_problem. intros Hwrite.
  assert (Hrewrite :
    forall examples,
      task_examples params problem = Ok examples ->
      match <[problem := examples]> store !! problem with
      | Some examples0 =>
          if records_valid examples0
          then Ok (<[problem := examples]> store)
          else task_examples params problem ≫= fun examples1 =>
               Ok (<[problem := examples1]> (<[problem := examples]> store))
      | None =>
          task_examples params problem ≫= fun examples1 =>
          Ok (<[problem := examples1]> (<[problem := examples]> store))
      end = Ok (<[problem := examples]> store)).
  { intros examples Hte. rewrite lookup_insert_eq.
    destruct (records_valid examples); [reflexivity|].
    rewrite Hte. simpl. rewrite insert_insert_eq. reflexivity. }
  destruct (store !! problem) as [examples|] eqn:Hlookup.
  - destruct (records_valid examples) eqn:Hvalid.
    + inversion Hwrite. subst store1. rewrite Hlookup, Hvalid. reflexivity.
    + apply bind_Ok in Hwrite as (examples' & Hte & Hwrite).
      inversion Hwrite. subst store1. apply Hrewrite. exact Hte.
  - apply bind_Ok in Hwrite as (examples' & Hte & Hwrite).
    inversion Hwrite. subst store1. apply Hrewrite. exact Hte.
Qed.

(** Writing another task does not unsettle a settled one. *)
Lemma write_problem_keeps_settled params (store store1 : RecordStore)
    problem other :
  write_problem params store problem = Ok store ->
  write_problem params store other = Ok store1 ->
  write_problem params store1 problem = Ok store1.
Proof.
  intros Hsettled Hwrite.
  destruct (decide (problem = other)) as [->|Hne].
  { apply write_problem_settled with (store := store). exact Hwrite. }
  assert (Hstep : store1 = store \/
                  exists examples, store1 = <[other := examples]> store).
  { unfold write_problem, Modelled.write_problem in Hwrite.
    destruct (store !! other) as [examples|].
    - destruct (records_valid examples).
      + left. inversion Hwrite. reflexivity.
      + apply bind_Ok in Hwrite as (examples' & _ & Hwrite).
        right. exists examples'. inversion Hwrite. reflexivity.
    - apply bind_Ok in Hwrite as (examples' & _ & Hwrite).
      right. exists examples'. inversion Hwrite. reflexivity. }
  destruct Hstep as [->|[examples' ->]]; [exact Hsettled|].
  unfold write_problem, Modelled.write_problem in *.
  rewrite lookup_insert_ne by congruence.
  destruct (store !! problem) as [examples|] eqn:Hlookup.
  - destruct (records_valid examples); [reflexivity|].
    apply bind_Ok in Hsettled as (examples0 & Hte & Hsame).
    rewrite Hte. simpl. inversion Hsame as [Hsame'].
    rewrite insert_insert_ne by congruence.
    rewrite Hsame'. rewrite Hsame'. reflexivity.
  - apply bind_Ok in Hsettled as (examples0 & Hte & Hsame).
    rewrite Hte. simpl. inversion Hsame as [Hsame'].
    rewrite insert_insert_ne by congruence.
    rewrite Hsame'. rewrite Hsame'. reflexivity.
Qed.

Lemma foldM_write_keeps_settled params problem :
  forall problems (store store' : RecordStore),
    write_problem params store problem = Ok store ->
    foldM (write_problem params) store problems = Ok store' ->
    write_problem params store' problem = Ok store'.
Proof.
  induction problems as [|other problems IH]; intros store store' Hs Hrun.
  - simpl in Hrun. inversion Hrun. subst store'. exact Hs.
  - simpl in Hrun. apply bind_Ok in Hrun as (store1 & Hstep & Hrun).
    apply (IH store1 store'); [|exact Hrun].
    apply write_problem_keeps_settled with (store := store) (other := other);
      assumption.
Qed.

Lemma foldM_write_settles params :
  forall problems (store store' : RecordStore),
    foldM (write_problem params) store problems = Ok store' ->
    Forall (fun problem => write_problem params store' problem = Ok store')
           problems.
Proof.
  induction problems as [|problem problems IH]; intros store store' Hrun.
  - constructor.
  - simpl in Hrun. apply bind_Ok in Hrun as (store1 & Hstep & Hrun).
    constructor.
    + apply (foldM_write_keeps_settled params problem problems store1);
        [|exact Hrun].
      apply write_problem_settled with (store := store). exact Hstep.
    + apply (IH store1). exact Hrun.
Qed.

Lemma foldM_settled_noop params (store : RecordStore) :
  forall problems,
    Forall (fun problem => write_problem params store problem = Ok store)
           problems ->
    foldM (write_problem params) store problems = Ok store.
Proof.
  induction problems as [|problem problems IH]; intros Hall.
  - reflexivity.
  - apply Forall_cons in Hall as [Hhead Htail].
    simpl. rewrite Hhead. simpl. apply IH. exact Htail.
Qed.

(** The record writer is idempotent: after a successful run, running it
    again succeeds and changes nothing. *)
Lemma write_tfrecord_idempotent params (store store' : RecordStore) :
  write_tfrecord params store = Ok store' ->
  write_tfrecord params store' = Ok store'.
Proof.
  unfold write_tfrecord, Modelled.write_tfrecord. intros Hrun.
  apply foldM_settled_noop.
  apply (foldM_write_settles params _ store). exact Hrun.
Qed.

(** The record writer is a no-op when valid records exist for every
    configured task. *)
Lemma write_tfrecord_noop_when_valid params (store : RecordStore) :
  (forall problem,
      problem ∈ problem_list params ->
      exists examples,
        store !! problem = Some examples /\ records_valid examples = true) ->
  write_tfrecord params store = Ok store.
Proof.
  intros Hvalid. unfold write_tfrecord, Modelled.write_tfrecord.
  apply foldM_settled_noop. apply Forall_forall. intros problem Hin.
  destruct (Hvalid problem Hin) as (examples & Hlookup & Hok).
  unfold write_problem, Modelled.write_problem.
  rewrite Hlookup, Hok. reflexivity.
Qed.

End RecordWriterProperties.

(** C8. A second call of [train_eval_input_fn] with the same
    configuration does not fail: the record-writing step it starts with is
    idempotent, so the second call finds the store as the first call left
    it and returns the same dataset; the writer is a no-op whenever valid
    records exist for every configured task. *)
Theorem train_eval_input_fn_twice :
  forall task_examples records_valid params mode store dataset store',
    @train_eval_input_fn (Modelled.collaborators task_examples records_valid)
      params mode store = Ok (dataset, store') ->
    Modelled.write_tfrecord task_examples records_valid params store'
    = Ok store'
    /\ @train_eval_input_fn
         (Modelled.collaborators task_examples records_valid)
         params mode store' = Ok (dataset, store')
    /\ (forall store0 : RecordStore,
          (forall problem,
              problem ∈ problem_list params ->
              exists examples,
                store0 !! problem = Some examples
                /\ records_valid examples = true) ->
          Modelled.write_tfrecord task_examples records_valid params store0
          = Ok store0).
Proof.
  intros task_examples records_valid params mode store dataset store' Hrun.
  unfold train_eval_input_fn in Hrun.
  apply bind_Ok in Hrun as (written & Hwrite & Hrest).
  assert (Hstore : store' = written).
  { apply bind_Ok in Hrest as (dataset_dict & _ & Hrun).
    apply bind_Ok in Hrun as (combined & _ & Hrun).
    apply bind_Ok in Hrun as (batched & _ & Hrun).
    inversion Hrun. reflexivity. }
  subst written. simpl in Hwrite.
  pose proof (write_tfrecord_idempotent task_examples records_valid params
                store store' Hwrite) as Hagain.
  split; [exact Hagain|]. split.
  - unfold train_eval_input_fn. simpl. rewrite Hagain. exact Hrest.
  - intros store0. apply write_tfrecord_noop_when_valid.
Qed.

Lemma train_eval_input_fn_twice_witness :
  @train_eval_input_fn Sample.collaborators Sample.config "train"
    Sample.written_store
  = Ok (Batch 2 (Prefetch AUTOTUNE (Shuffle 100
          (SampleFromDatasets [TFRecordDataset ["ner"]]))),
        Sample.written_store).
Proof.
  destruct (train_eval_input_fn_twice Sample.task_examples
              Sample.records_valid Sample.config "train" ∅
              (Batch 2 (Prefetch AUTOTUNE (Shuffle 100
                 (SampleFromDatasets [TFRecordDataset ["ner"]]))))
              Sample.written_store) as (_ & Hsecond & _).
  - reflexivity.
  - exact Hsecond.
Defined.

(** ** Further properties *)

(** *** [element_length_func] *)

(** X1. [element_length_func] returns a value exactly on records whose
    ['input_ids'] is a sequence, and the value is its length (never
    negative); a record without ['input_ids'] raises [KeyError]. *)
Theorem element_length_func_cases :
  forall yield_dict : FeatureDict,
    (forall n,
        element_length_func yield_dict = Ok n <->
        exists ids, yield_dict !! "input_ids" = Some (Vector ids)
                    /\ n = Z.of_nat (length ids))
    /\ (forall n, element_length_func yield_dict = Ok n -> (0 <= n)%Z)
    /\ (yield_dict !! "input_ids" = None <->
        element_length_func yield_dict = Raise (KeyError "input_ids")).
Proof.
  intros yield_dict. unfold element_length_func, getitem.
  destruct (yield_dict !! "input_ids") as [[z|ids]|] eqn:Hids; simpl.
  - split; [|split].
    + intros n. split; [discriminate|]. intros (ids & Hv & _). discriminate.
    + discriminate.
    + split; discriminate.
  - split; [|split].
    + intros n. split.
      * intros Hn. inversion Hn. exists ids. split; reflexivity.
      * intros (ids' & Hv & ->). inversion Hv. reflexivity.
    + intros n Hn. inversion Hn. lia.
    + split; discriminate.
  - split; [|split].
    + intros n. split; [discriminate|]. intros (ids & Hv & _). discriminate.
    + discriminate.
    + split; reflexivity.
Qed.

Lemma element_length_func_cases_witness :
  element_length_func (<["input_mask" := Vector [1; 1]%Z]> ∅)
  = Raise (KeyError "input_ids").
Proof.
  destruct (element_length_func_cases (<["input_mask" := Vector [1; 1]%Z]> ∅))
    as (_ & _ & Hmissing).
  apply Hmissing. reflexivity.
Defined.

(** *** [train_eval_input_fn] *)

Section TrainEvalFurther.
Context `{Collaborators}.

(** X2. Whatever [train_eval_input_fn] returns, the record writer and the
    record reader returned before it: the store it leaves is the one the
    writer returned, the reader was given that store and returned at least
    one per-task dataset, and the dataset is the sample of the per-task
    datasets in the reader's order, shuffled (train only), prefetched,
    then bucketed or batched; under dynamic padding the bucket lists have
    matching lengths. *)
Theorem train_eval_input_fn_returns_pipeline :
  forall params mode store dataset store',
    train_eval_input_fn params mode store = Ok (dataset, store') ->
    exists dataset_dict,
      write_tfrecord params store = Ok store'
      /\ read_tfrecord params mode store' = Ok dataset_dict
      /\ dataset_dict <> []
      /\ (dynamic_padding params = true ->
          length (bucket_batch_sizes params) =
            S (length (bucket_boundaries params)))
      /\ let combined := SampleFromDatasets (map snd dataset_dict) in
         let shuffled :=
           if String.eqb mode "train"
           then Shuffle (shuffle_buffer params) combined else combined in
         let prefetched := Prefetch AUTOTUNE shuffled in
         dataset =
           if dynamic_padding params
           then BucketBySequenceLength element_length_func
                  (bucket_boundaries params) (bucket_batch_sizes params)
                  prefetched
           else if String.eqb mode "train"
                then Batch (batch_size params) prefetched
                else Batch (batch_size params * 2) prefetched.
Proof.
  intros params mode store dataset store'.
  unfold train_eval_input_fn. intros Hrun.
  apply bind_Ok in Hrun as (written & Hwrite & Hrun).
  apply bind_Ok in Hrun as (dataset_dict & Hread & Hrun).
  apply bind_Ok in Hrun as (combined & Hsample & Hrun).
  apply bind_Ok in Hrun as (batched & Hbatch & Hrun).
  inversion Hrun. subst batched written. clear Hrun.
  exists dataset_dict. split; [exact Hwrite|]. split; [exact Hread|].
  destruct dataset_dict as [|entry entries]; [discriminate|].
  split; [discriminate|].
  simpl in Hsample. inversion Hsample. subst combined. clear Hsample.
  destruct (dynamic_padding params).
  - unfold bucket_by_sequence_length in Hbatch.
    destruct (decide (length (bucket_batch_sizes params)
                      = S (length (bucket_boundaries params))))
      as [Hlen|Hlen]; [|discriminate].
    inversion Hbatch. split; [intros _; exact Hlen | reflexivity].
  - split; [discriminate|].
    destruct (String.eqb mode "train"); inversion Hbatch; reflexivity.
Qed.

(** X3. [train_eval_input_fn] handles no exception of its collaborators:
    an exception of the record writer is raised as it is, whatever the
    reader would do; when the writer returns, an exception of the record
    reader, called on the written store, is raised as it is; and when the
    reader returns no per-task dataset at all, no dataset is returned. *)
Theorem train_eval_input_fn_propagates_errors :
  forall params mode store,
    (forall e,
        write_tfrecord params store = Raise e ->
        train_eval_input_fn params mode store = Raise e)
    /\ (forall store' e,
          write_tfrecord params store = Ok store' ->
          read_tfrecord params mode store' = Raise e ->
          train_eval_input_fn params mode store = Raise e)
    /\ (forall store',
          write_tfrecord params store = Ok store' ->
          read_tfrecord params mode store' = Ok [] ->
          forall dataset store'',
            train_eval_input_fn params mode store <> Ok (dataset, store'')).
Proof.
  intros params mode store. unfold train_eval_input_fn.
  split; [|split].
  - intros e Hwrite. rewrite Hwrite. reflexivity.
  - intros store' e Hwrite Hread. rewrite Hwrite. simpl.
    rewrite Hread. reflexivity.
  - intros store' Hwrite Hread dataset store''. rewrite Hwrite. simpl.
    rewrite Hread. simpl. discriminate.
Qed.

(** X4. Under dynamic padding the pipeline of [train_eval_input_fn] ends
    with the bucketing step keyed by [element_length_func] with the
    configured boundaries and batch sizes; no fixed-size batch step is
    applied, so [batch_size] plays no part and the batching step is the
    same in every mode (the eval batch is not doubled). *)
Theorem train_eval_dynamic_padding_buckets :
  forall params mode store dataset store',
    dynamic_padding params = true ->
    train_eval_input_fn params mode store = Ok (dataset, store') ->
    exists upstream,
      dataset = BucketBySequenceLength element_length_func
                  (bucket_boundaries params) (bucket_batch_sizes params)
                  upstream
      /\ fixed_batch_sizes dataset = []
      /\ last (transformations dataset)
         = Some (TBucket (bucket_boundaries params)
                   (bucket_batch_sizes params))
      /\ length (bucket_batch_sizes params)
         = S (length (bucket_boundaries params)).
Proof.
  intros params mode store dataset store' Hdyn Hrun.
  unfold train_eval_input_fn in Hrun.
  apply bind_Ok in Hrun as (written & _ & Hrun).
  apply bind_Ok in Hrun as (dataset_dict & _ & Hrun).
  apply bind_Ok in Hrun as (combined & Hsample & Hrun).
  apply bind_Ok in Hrun as (batched & Hbatch & Hrun).
  inversion Hrun. subst batched written. clear Hrun.
  rewrite Hdyn in Hbatch. unfold bucket_by_sequence_length in Hbatch.
  destruct (decide (length (bucket_batch_sizes params)
                    = S (length (bucket_boundaries params))))
    as [Hlen|Hlen]; [|discriminate].
  inversion Hbatch. subst dataset. clear Hbatch.
  destruct (map snd dataset_dict) as [|d ds]; [discriminate|].
  inversion Hsample. subst combined.
  eexists. split; [reflexivity|].
  split; [|split; [|exact Hlen]].
  - destruct (String.eqb mode "train"); reflexivity.
  - destruct (String.eqb mode "train"); reflexivity.
Qed.

End TrainEvalFurther.

Lemma train_eval_input_fn_returns_pipeline_witness :
  exists dataset_dict,
    Modelled.read_tfrecord Cases.dynamic_config "eval" Sample.written_store
    = Ok dataset_dict
    /\ dataset_dict <> [].
Proof.
  destruct (@train_eval_input_fn_returns_pipeline Sample.collaborators
              Cases.dynamic_config "eval" ∅
              (BucketBySequenceLength element_length_func [8]%Z [4; 2]%Z
                 (Prefetch AUTOTUNE
                    (SampleFromDatasets [TFRecordDataset ["ner"]])))
              Sample.written_store)
    as (dataset_dict & _ & Hread & Hne & _).
  - reflexivity.
  - exists dataset_dict. split; [exact Hread | exact Hne].
Defined.

Lemma train_eval_input_fn_propagates_errors_witness :
  @train_eval_input_fn Cases.failing_collaborators Sample.config "train" ∅
  = Raise (FileNotFoundError "ner").
Proof.
  destruct (@train_eval_input_fn_propagates_errors
              Cases.failing_collaborators Sample.config "train" ∅)
    as (Hwriter & _).
  apply Hwriter. reflexivity.
Defined.

Lemma train_eval_dynamic_padding_buckets_witness :
  exists dataset,
    @train_eval_input_fn Sample.collaborators Cases.dynamic_config "eval" ∅
    = Ok (dataset, Sample.written_store)
    /\ fixed_batch_sizes dataset = [].
Proof.
  destruct (@train_eval_dynamic_padding_buckets Sample.collaborators
              Cases.dynamic_config "eval" ∅
              (BucketBySequenceLength element_length_func [8]%Z [4; 2]%Z
                 (Prefetch AUTOTUNE
                    (SampleFromDatasets [TFRecordDataset ["ner"]])))
              Sample.written_store) as (upstream & _ & Hfixed & _).
  - reflexivity.
  - reflexivity.
  - eexists. split; [reflexivity | exact Hfixed].
Defined.

(** *** [predict_input_fn] *)

Lemma batch_from_concat {A} (n : nat) (xs : list A) :
  forall cur, concat (batch_from n cur xs) = (cur ++ xs)%list.
Proof.
  induction xs as [|x xs IH]; intros cur; simpl.
  - destruct cur; simpl; [reflexivity|]. rewrite !app_nil_r. reflexivity.
  - destruct (decide (length (cur ++ [x])%list = n)); simpl.
    + rewrite IH. simpl. rewrite <- app_assoc. reflexivity.
    + rewrite IH. rewrite <- app_assoc. reflexivity.
Qed.

Lemma batch_from_full_but_last {A} (n : nat) (xs : list A) :
  0 < n ->
  forall cur, length cur < n -> full_but_last n (batch_from n cur xs).
Proof.
  intros Hn. induction xs as [|x xs IH]; intros cur Hcur; simpl.
  - destruct cur as [|c cur]; simpl; [exact I|]. simpl in Hcur. lia.
  - assert (Hlen : length (cur ++ [x])%list = S (length cur)).
    { rewrite length_app. simpl. lia. }
    destruct (decide (length (cur ++ [x])%list = n)) as [Hfull|Hshort].
    + specialize (IH [] Hn).
      change (full_but_last n ((cur ++ [x])%list :: batch_from n [] xs))
        with (match batch_from n [] xs with
              | [] => 0 < length (cur ++ [x])%list <= n
              | _ :: _ => length (cur ++ [x])%list = n
                          /\ full_but_last n (batch_from n [] xs)
              end).
      destruct (batch_from n [] xs); [lia | split; [exact Hfull | exact IH]].
    + apply IH. lia.
Qed.

Lemma full_but_last_count {A} (n : nat) (batches : list (list A)) :
  0 < n ->
  full_but_last n batches ->
  length batches = (length (concat batches) + n - 1) / n.
Proof.
  intros Hn. induction batches as [|b rest IH]; intros Hfull.
  - simpl. symmetry. apply Nat.div_small. lia.
  - destruct rest as [|r rest].
    + simpl in Hfull. simpl. rewrite app_nil_r.
      apply Nat.div_unique with (r := length b - 1); lia.
    + destruct Hfull as [Hb Hrest]. specialize (IH Hrest).
      change (concat (b :: r :: rest)) with (b ++ concat (r :: rest))%list.
      rewrite length_app, Hb.
      change (length (b :: r :: rest)) with (S (length (r :: rest))).
      rewrite IH.
      replace (n + length (concat (r :: rest)) + n - 1)
        with (1 * n + (length (concat (r :: rest)) + n - 1)) by lia.
      rewrite Nat.div_add_l by lia. reflexivity.
Qed.

Lemma batch_elements_member {A} (n : nat) (xs b : list A) (x : A) :
  b ∈ batch_elements n xs -> x ∈ b -> x ∈ xs.
Proof.
  intros Hb Hx. apply list_elem_of_In.
  change xs with ([] ++ xs)%list.
  rewrite <- (batch_from_concat n xs []).
  apply in_concat. exists b. split; apply list_elem_of_In; assumption.
Qed.

Lemma max_list_with_ge {A} (f : A -> nat) (l : list A) (x : A) :
  x ∈ l -> f x <= max_list_with f l.
Proof.
  induction l as [|y l IH]; intros Hin.
  - inversion Hin.
  - apply elem_of_cons in Hin as [->|Hin]; simpl; [lia|].
    specialize (IH Hin). lia.
Qed.

(** Inside a batch of conforming records, no value is longer than the
    length its feature is padded to. *)
Lemma padded_length_ge types shapes (batch : list FeatureDict) r k w :
  r ∈ batch ->
  conforms types shapes r ->
  r !! k = Some (Vector w) ->
  length w <= padded_length shapes k batch.
Proof.
  intros Hin (_ & Hdom & Hfits) Hk. unfold padded_length.
  assert (Hshape : is_Some (shapes !! k)).
  { apply elem_of_dom. rewrite <- Hdom. apply elem_of_dom. eauto. }
  destruct Hshape as [shape Hshape]. rewrite Hshape.
  specialize (Hfits k (Vector w) shape Hk Hshape).
  assert (Hmax : length w <=
                 max_list_with
                   (fun r => from_option feature_length 0 (r !! k)) batch).
  { pose proof (max_list_with_ge
                  (fun r : FeatureDict =>
                     from_option feature_length 0 (r !! k)) batch r Hin)
      as Hge.
    simpl in Hge. rewrite Hk in Hge. exact Hge. }
  destruct shape as [|[n|] [|d shape]]; simpl in Hfits;
    try contradiction; try exact Hmax.
  subst n. lia.
Qed.

Lemma pad_record_lookup_vector shapes batch (r : FeatureDict) k u :
  pad_record shapes batch r !! k = Some (Vector u) ->
  exists w,
    r !! k = Some (Vector w)
    /\ u = (w ++ replicate (padded_length shapes k batch - length w) 0%Z)%list.
Proof.
  unfold pad_record. rewrite map_lookup_imap.
  destruct (r !! k) as [[z|w]|]; simpl; intros Hu; inversion Hu.
  exists w. split; reflexivity.
Qed.

Section PredictFurther.
Context `{Collaborators}.

(** What a returned dataset tells about the run of [predict_input_fn]. *)
Lemma predict_input_fn_ok_inv arg config mode fs dataset :
  predict_input_fn arg config mode fs = Ok dataset ->
  exists inputs tokenizer part_fn first rest shapes types,
    predict_inputs arg fs = Ok inputs
    /\ FullTokenizer (vocab_file config) fs = Ok tokenizer
    /\ predict_part_fn config tokenizer mode inputs = Ok part_fn
    /\ part_fn inputs = Ok (first :: rest)
    /\ infer_shape_and_type_from_dict first = Ok (shapes, types)
    /\ dataset = PaddedBatch (batch_size config) shapes
                   (FromGenerator (first :: rest) types shapes).
Proof.
  unfold predict_input_fn, predict_dataset. intros Hrun.
  apply bind_Ok in Hrun as (inputs & Hinputs & Hrun).
  apply bind_Ok in Hrun as (tokenizer & Htok & Hrun).
  apply bind_Ok in Hrun as (part_fn & Hsel & Hrun).
  apply bind_Ok in Hrun as (data_list & Hdata & Hrun).
  apply bind_Ok in Hrun as (first & Hfirst & Hrun).
  apply bind_Ok in Hrun as ([shapes types] & Hinfer & Hrun).
  inversion Hrun. subst dataset.
  destruct data_list as [|first' rest]; [discriminate|].
  simpl in Hfirst. inversion Hfirst. subst first'.
  exists inputs, tokenizer, part_fn, first, rest, shapes, types.
  repeat split; assumption.
Qed.


(** X6. The exceptions of [predict_input_fn] in the order in which they
    can arise: a missing input file raises [FileNotFoundError] before the
    vocabulary is touched; an exception of the tokenizer is raised for any
    input that was read, even an empty one; an encoder that returns no
    record makes [data_list[0]] raise [IndexError]; an exception of the
    shape inference is raised as it is. *)
Theorem predict_input_fn_raises_in_order :
  forall config mode fs,
    (forall path,
        fs !! path = None ->
        predict_input_fn (FilePath path) config mode fs
        = Raise (FileNotFoundError path))
    /\ (forall arg inputs e,
          predict_inputs arg fs = Ok inputs ->
          FullTokenizer (vocab_file config) fs = Raise e ->
          predict_input_fn arg config mode fs = Raise e)
    /\ (forall arg inputs tokenizer part_fn,
          predict_inputs arg fs = Ok inputs ->
          FullTokenizer (vocab_file config) fs = Ok tokenizer ->
          predict_part_fn config tokenizer mode inputs = Ok part_fn ->
          (part_fn inputs = Ok [] ->
           predict_input_fn arg config mode fs = Raise IndexError)
          /\ (forall first rest e,
                part_fn inputs = Ok (first :: rest) ->
                infer_shape_and_type_from_dict first = Raise e ->
                predict_input_fn arg config mode fs = Raise e)).
Proof.
  intros config mode fs. split; [|split].
  - intros path Hmissing.
    unfold predict_input_fn, predict_inputs, open_readlines.
    rewrite Hmissing. reflexivity.
  - intros arg inputs e Hinputs Htok. unfold predict_input_fn.
    rewrite Hinputs. simpl. rewrite Htok. reflexivity.
  - intros arg inputs tokenizer part_fn Hinputs Htok Hsel.
    unfold predict_input_fn, predict_dataset.
    rewrite Hinputs. simpl. rewrite Htok. simpl. rewrite Hsel. simpl.
    split.
    + intros Hdata. rewrite Hdata. reflexivity.
    + intros first rest e Hdata Hinfer.
      rewrite Hdata. simpl. rewrite Hinfer. reflexivity.
Qed.

(** X7. For a file input the standard text encoder is always the one
    selected: the lines of a file are plain strings, so whatever a
    non-empty file holds, all of its lines are encoded by
    [create_bert_features] (and a file that does not decode raises before
    any encoder is called). *)
Theorem predict_file_input_uses_standard_encoder :
  forall config mode fs tokenizer path content,
    fs !! path = Some content ->
    content <> "" ->
    FullTokenizer (vocab_file config) fs = Ok tokenizer ->
    let standard :=
      create_bert_features "" None config tokenizer mode "cls" false in
    predict_part_fn config tokenizer mode (IStr <$> readlines content)
    = Ok standard
    /\ predict_input_fn (FilePath path) config mode fs
       = (if utf8_valid content
          then predict_dataset config standard (IStr <$> readlines content)
          else Raise UnicodeDecodeError).
Proof.
  intros config mode fs tokenizer path content Hfile Hne Htok standard.
  assert (Hsel : predict_part_fn config tokenizer mode
                   (IStr <$> readlines content) = Ok standard).
  { destruct (readlines content) as [|line lines] eqn:Hlines.
    - exfalso. apply Hne. apply readlines_nil_inv. exact Hlines.
    - reflexivity. }
  split; [exact Hsel|].
  destruct (utf8_valid content) eqn:Hvalid.
  - rewrite (predict_input_fn_path _ _ _ _ _ Hfile Hvalid).
    rewrite (predict_input_fn_list _ _ _ _ _ Htok), Hsel. reflexivity.
  - unfold predict_input_fn, predict_inputs, open_readlines.
    rewrite Hfile, Hvalid. reflexivity.
Qed.

(** X8. When the batch size is positive and every encoded record matches
    the structure inferred from the first one, iterating the dataset of
    [predict_input_fn] gives the padded batches of a partition of the
    encoded records: in order, nothing lost or repeated, every batch but
    the last of exactly [batch_size] records, the last of at least one,
    ceil(n / batch_size) batches in all. *)
Theorem predict_batches_partition_records :
  forall arg config mode fs dataset data types shapes,
    predict_input_fn arg config mode fs = Ok dataset ->
    pipeline_input dataset = FromGenerator data types shapes ->
    Forall (conforms types shapes) data ->
    (0 < batch_size config)%Z ->
    let n := Z.to_nat (batch_size config) in
    exists batches,
      (forall out,
          yields_batches dataset out <-> out = pad_batch shapes <$> batches)
      /\ concat batches = data
      /\ full_but_last n batches
      /\ length batches = (length data + n - 1) / n.
Proof.
  intros arg config mode fs dataset data types shapes Hrun Hinput Hconf
         Hsize n.
  destruct (predict_input_fn_ok_inv _ _ _ _ _ Hrun)
    as (inputs & tokenizer & part_fn & first & rest & shapes' & types'
        & _ & _ & _ & _ & _ & ->).
  simpl in Hinput. inversion Hinput. subst data types' shapes'.
  clear Hinput.
  assert (Hn : 0 < n) by (unfold n; lia).
  exists (batch_elements n (first :: rest)).
  assert (Hconcat : concat (batch_elements n (first :: rest))
                    = first :: rest).
  { unfold batch_elements. rewrite batch_from_concat. reflexivity. }
  assert (Hfull : full_but_last n (batch_elements n (first :: rest))).
  { apply batch_from_full_but_last; simpl; lia. }
  split; [|split; [exact Hconcat|split; [exact Hfull|]]].
  - intros out. split.
    + intros Hyield. inversion Hyield as [|m sh d xs Hpos Hxs]; subst.
      inversion Hxs; subst. reflexivity.
    + intros ->. constructor; [exact Hsize|]. constructor. exact Hconf.
  - rewrite (full_but_last_count n _ Hn Hfull), Hconcat. reflexivity.
Qed.

(** X9. In every batch that the dataset of [predict_input_fn] yields, all
    records have the same feature names, and for each feature all
    sequence values have the same length; padding only appends zeros to
    the encoded values and leaves the feature names as they were. *)
Theorem predict_batch_uniform_after_padding :
  forall arg config mode fs dataset out batch,
    predict_input_fn arg config mode fs = Ok dataset ->
    yields_batches dataset out ->
    batch ∈ out ->
    (forall p q, p ∈ batch -> q ∈ batch ->
       dom p = dom q
       /\ forall k u v,
            p !! k = Some (Vector u) -> q !! k = Some (Vector v) ->
            length u = length v)
    /\ exists shapes records,
         batch = pad_batch shapes records
         /\ Forall2
              (fun r p =>
                 dom p = dom r
                 /\ forall k u,
                      p !! k = Some (Vector u) ->
                      exists w zeros,
                        r !! k = Some (Vector w)
                        /\ u = (w ++ replicate zeros 0%Z)%list)
              records batch.
Proof.
  intros arg config mode fs dataset out batch Hrun Hyield Hbatch.
  destruct (predict_input_fn_ok_inv _ _ _ _ _ Hrun)
    as (inputs & tokenizer & part_fn & first & rest & shapes & types
        & _ & _ & _ & _ & _ & ->).
  inversion Hyield as [|m sh d xs Hpos Hxs]; subst.
  inversion Hxs as [data ty sh Hconf| |]; subst. clear Hyield Hxs.
  apply list_elem_of_fmap in Hbatch as (records & -> & Hrecords).
  assert (Hmember : forall r, r ∈ records -> conforms types shapes r).
  { intros r Hr. rewrite Forall_forall in Hconf. apply Hconf.
    apply (batch_elements_member _ _ _ _ Hrecords Hr). }
  split.
  - intros p q Hp Hq. unfold pad_batch in Hp, Hq.
    apply list_elem_of_fmap in Hp as (rp & -> & Hrp).
    apply list_elem_of_fmap in Hq as (rq & -> & Hrq).
    pose proof (Hmember rp Hrp) as Hcp. pose proof (Hmember rq Hrq) as Hcq.
    split.
    + rewrite !dom_pad_record.
      destruct Hcp as (Hdp & _). destruct Hcq as (Hdq & _). congruence.
    + intros k u v Hu Hv.
      apply pad_record_lookup_vector in Hu as (wu & Hwu & ->).
      apply pad_record_lookup_vector in Hv as (wv & Hwv & ->).
      pose proof (padded_length_ge _ _ _ _ _ _ Hrp Hcp Hwu) as Hlu.
      pose proof (padded_length_ge _ _ _ _ _ _ Hrq Hcq Hwv) as Hlv.
      rewrite !length_app, !length_replicate. lia.
  - exists shapes, records. split; [reflexivity|].
    unfold pad_batch. apply Forall2_fmap_r. apply Forall_Forall2_diag.
    apply Forall_forall. intros r Hr. split.
    + apply dom_pad_record.
    + intros k u Hu.
      apply pad_record_lookup_vector in Hu as (w & Hw & ->).
      exists w. eexists. split; [exact Hw | reflexivity].
Qed.

End PredictFurther.


Lemma predict_input_fn_raises_in_order_witness :
  @predict_input_fn Sample.collaborators (FilePath "missing.txt")
    Sample.config "predict" Sample.fs
  = Raise (FileNotFoundError "missing.txt").
Proof.
  destruct (@predict_input_fn_raises_in_order Sample.collaborators
              Sample.config "predict" Sample.fs) as (Hmissing & _).
  apply Hmissing. reflexivity.
Defined.

Lemma predict_file_input_uses_standard_encoder_witness :
  @predict_part_fn Sample.collaborators Sample.config Sample.tokenizer
    "predict"
    (IStr <$> readlines (Sample.lines_to_text ["hello world"; "world"]))
  = Ok (Modelled.create_bert_features "" None Sample.config Sample.tokenizer
          "predict" "cls" false).
Proof.
  destruct (@predict_file_input_uses_standard_encoder Sample.collaborators
              Sample.config "predict" Sample.fs Sample.tokenizer
              "input.txt" (Sample.lines_to_text ["hello world"; "world"]))
    as [Hselected _].
  - reflexivity.
  - discriminate.
  - reflexivity.
  - exact Hselected.
Defined.

Lemma predict_batches_partition_records_witness :
  exists batches : list (list FeatureDict),
    concat batches = Cases.three_encoded /\ length batches = 2.
Proof.
  destruct (@predict_batches_partition_records Sample.collaborators
              (InList Cases.three_strings) Sample.config "predict"
              Sample.fs
              (PaddedBatch 2 Cases.encoded_shapes
                 (FromGenerator Cases.three_encoded Cases.encoded_types
                    Cases.encoded_shapes))
              Cases.three_encoded Cases.encoded_types Cases.encoded_shapes)
    as (batches & _ & Hconcat & _ & Hcount).
  - reflexivity.
  - reflexivity.
  - apply Forall_cons. split; [apply conforms_text_features|].
    apply Forall_cons. split; [apply conforms_text_features|].
    apply Forall_cons. split; [apply conforms_text_features|].
    apply Forall_nil_2.
  - reflexivity.
  - exists batches. split; [exact Hconcat | exact Hcount].
Defined.

Lemma predict_batch_uniform_after_padding_witness :
  dom (pad_record Cases.encoded_shapes Sample.two_encoded
         (text_features [1; 3; 4; 2; 0]%Z [1; 1; 1; 1; 0]%Z
            [0; 0; 0; 0; 0]%Z))
  = dom (pad_record Cases.encoded_shapes Sample.two_encoded
           (text_features [1; 4; 2; 0; 0]%Z [1; 1; 1; 0; 0]%Z
              [0; 0; 0; 0; 0]%Z)).
Proof.
  destruct (@predict_batch_uniform_after_padding Sample.collaborators
              (InList Sample.two_strings) Sample.config "predict" Sample.fs
              (PaddedBatch 2 Cases.encoded_shapes
                 (FromGenerator Sample.two_encoded Cases.encoded_types
                    Cases.encoded_shapes))
              (pad_batch Cases.encoded_shapes
                 <$> batch_elements (Z.to_nat 2) Sample.two_encoded)
              (pad_batch Cases.encoded_shapes Sample.two_encoded))
    as [Huniform _].
  - reflexivity.
  - apply batches_padded_batch; [reflexivity|].
    apply yields_generator.
    apply Forall_cons. split; [apply conforms_text_features|].
    apply Forall_cons. split; [apply conforms_text_features|].
    apply Forall_nil_2.
  - apply list_elem_of_fmap_2.
    unfold Sample.two_encoded. rewrite batch_elements_pair by (simpl; lia).
    apply list_elem_of_here.
  - apply Huniform.
    + apply list_elem_of_here.
    + apply list_elem_of_further, list_elem_of_here.
Defined.

(** *** [to_serving_input] and [serving_input_fn] *)

Lemma text_features_lookup_inv ids mask segs k v :
  text_features ids mask segs !! k = Some v ->
  (k = "input_ids" /\ v = Vector ids)
  \/ (k = "input_mask" /\ v = Vector mask)
  \/ (k = "segment_ids" /\ v = Vector segs).
Proof.
  unfold text_features. intros Hk.
  destruct (decide (k = "input_ids")) as [->|Hk1].
  { rewrite lookup_insert_eq in Hk. inversion Hk. left. split; reflexivity. }
  rewrite lookup_insert_ne in Hk by congruence.
  destruct (decide (k = "input_mask")) as [->|Hk2].
  { rewrite lookup_insert_eq in Hk. inversion Hk.
    right. left. split; reflexivity. }
  rewrite lookup_insert_ne in Hk by congruence.
  destruct (decide (k = "segment_ids")) as [->|Hk3].
  { rewrite lookup_insert_eq in Hk. inversion Hk.
    right. right. split; reflexivity. }
  rewrite lookup_insert_ne in Hk by congruence.
  rewrite lookup_empty in Hk. discriminate.
Qed.


(** Line endings of every kind end a line and are read as one LF. *)
Example readlines_mixed_line_endings :
  readlines
    (String.append "hello"
       (String carriage_return
          (String newline
             (String.append "world"
                (String carriage_return "hello")))))
  = [String.append "hello" (String newline "");
     String.append "world" (String newline "");
     "hello"].
Proof. reflexivity. Qed.

(** A byte that cannot start a UTF-8 sequence makes the read fail. *)
Example open_readlines_undecodable :
  open_readlines "bad.txt"
    (<["bad.txt" := String (ascii_of_nat 255) "hello"]> ∅)
  = Raise UnicodeDecodeError.
Proof. reflexivity. Qed.

Section ServingFurther.
Context `{Collaborators}.

Lemma gen_next_started_fs g fs fs' (h : Heap) :
  gen_started g -> gen_next g fs h = gen_next g fs' h.
Proof. destruct g; [contradiction | reflexivity | reflexivity]. Qed.

Lemma gen_next_stays_started g fs (h h' : Heap) o g' :
  gen_started g -> gen_next g fs h = Ok (o, g', h') -> gen_started g'.
Proof.
  destruct g as [| config tokenizer l rest |]; [contradiction| |].
  - intros _. simpl. destruct rest as [|doc rest]; simpl.
    + intros Hstep. inversion Hstep. exact I.
    + destruct (serving_features config tokenizer doc); simpl;
        intros Hstep; inversion Hstep. exact I.
  - intros _ Hstep. inversion Hstep. exact I.
Qed.

(** Once started, the generator never looks at the file system. *)
Lemma consume_started_fs fs fs' :
  forall fuel g (h : Heap),
    gen_started g -> consume fuel g fs h = consume fuel g fs' h.
Proof.
  induction fuel as [|fuel IH]; intros g h Hstarted; [reflexivity|].
  simpl. rewrite (gen_next_started_fs g fs fs' h Hstarted).
  destruct (gen_next g fs' h) as [[[[l|] g'] h']|e] eqn:Hstep;
    try reflexivity.
  rewrite (IH g' h'); [reflexivity|].
  apply (gen_next_stays_started g fs' h h' (Some l) g' Hstarted Hstep).
Qed.

(** The first [next] of a created generator, when the input is read and
    the tokenizer is available, continues as the loop over all lines on a
    heap with one more, empty, dictionary. *)
Lemma consume_created_eq input config mode tokenizer fs (h : Heap)
    inputs tok fuel :
  serving_inputs input fs = Ok inputs ->
  serving_tokenizer config tokenizer fs = Ok tok ->
  consume (S fuel) (to_serving_input input config mode tokenizer) fs h
  = consume (S fuel) (GenSuspended config tok (fresh (dom h)) inputs) fs
      (<[fresh (dom h) := ∅]> h).
Proof.
  intros Hinputs Htok. unfold to_serving_input. simpl.
  rewrite Hinputs, Htok. reflexivity.
Qed.

Lemma store_features_frame l features (h : Heap) :
  dom (store_features l features h) = dom h
  /\ forall l', l' <> l -> store_features l features h !! l' = h !! l'.
Proof.
  destruct features as [[ids mask] segs]. unfold store_features, setitem.
  split.
  - rewrite !dom_alter_L. reflexivity.
  - intros l' Hne. rewrite !lookup_alter_ne by congruence. reflexivity.
Qed.

(** The running generator writes to its own dictionary only. *)
Lemma consume_suspended_frame config tokenizer fs l :
  forall fuel rest (h h' : Heap) ys,
    consume fuel (GenSuspended config tokenizer l rest) fs h
    = Some (Ok (ys, h')) ->
    dom h' = dom h
    /\ (forall l', l' <> l -> h' !! l' = h !! l')
    /\ (rest = [] -> ys = [] /\ h' = h).
Proof.
  induction fuel as [|fuel IH]; intros rest h h' ys Hrun; [discriminate|].
  simpl in Hrun. destruct rest as [|doc rest]; simpl in Hrun.
  - inversion Hrun. subst. repeat split; reflexivity.
  - destruct (serving_features config tokenizer doc) as [features|e];
      simpl in Hrun; [|discriminate].
    destruct (consume fuel (GenSuspended config tokenizer l rest) fs
                (store_features l features h))
      as [[[ys1 h1]|e]|] eqn:Hrest; try discriminate.
    inversion Hrun. subst. clear Hrun.
    destruct (IH _ _ _ _ Hrest) as (Hdom & Hframe & _).
    destruct (store_features_frame l features h) as (Hdom0 & Hframe0).
    split; [congruence|]. split; [|discriminate].
    intros l' Hne. rewrite Hframe, Hframe0 by exact Hne. reflexivity.
Qed.

(** X10. Consuming the generator of [to_serving_input] allocates exactly
    one dictionary, a new object of the heap, and writes to no other:
    every dictionary that existed before is unchanged, every yielded
    reference is the new object, and for an input without lines nothing is
    yielded and the new dictionary stays empty. *)
Theorem to_serving_input_heap_footprint :
  forall input config mode tokenizer fs (h : Heap) inputs tok,
    serving_inputs input fs = Ok inputs ->
    serving_tokenizer config tokenizer fs = Ok tok ->
    Forall (fun doc => is_ok (serving_features config tok doc) = true)
           inputs ->
    exists ys h' data_dict,
      consume (S (length inputs))
        (to_serving_input input config mode tokenizer) fs h
      = Some (Ok (ys, h'))
      /\ h !! data_dict = None
      /\ dom h' = {[data_dict]} ∪ dom h
      /\ (forall l, l <> data_dict -> h' !! l = h !! l)
      /\ Forall (fun y => y.1 = data_dict) ys
      /\ (inputs = [] -> ys = [] /\ h' !! data_dict = Some ∅).
Proof.
  intros input config mode tokenizer fs h inputs tok Hinputs Htok Hok.
  set (l := fresh (dom h)).
  destruct (consume_suspended config tok fs l inputs (<[l := ∅]> h) ∅ Hok)
    as (ys & h' & Hrun & Hys & _).
  { apply lookup_insert_eq. }
  { rewrite dom_empty_L. set_solver. }
  destruct (consume_suspended_frame _ _ _ _ _ _ _ _ _ Hrun)
    as (Hdom & Hframe & Hnil).
  exists ys, h', l. split; [|split; [|split; [|split; [|split]]]].
  - rewrite (consume_created_eq _ _ _ _ _ _ _ _ _ Hinputs Htok).
    exact Hrun.
  - apply not_elem_of_dom. apply is_fresh.
  - rewrite Hdom, dom_insert_L. reflexivity.
  - intros l' Hne. rewrite Hframe by exact Hne.
    apply lookup_insert_ne. congruence.
  - clear - Hys. induction Hys as [|doc y docs ys Hy _ IH];
      constructor; [apply Hy | exact IH].
  - intros Hempty. destruct (Hnil Hempty) as [-> ->].
    split; [reflexivity | apply lookup_insert_eq].
Qed.

(** X11. [to_serving_input] ignores its [mode] argument, and when a
    tokenizer is passed together with a list of lines it reads no file at
    all: the outcome of consuming the generator is the same for every mode
    and every file system, whatever [vocab_file] names. *)
Theorem to_serving_input_ignores_mode_and_files :
  (forall fuel input config mode mode' tokenizer fs (h : Heap),
      consume fuel (to_serving_input input config mode tokenizer) fs h
      = consume fuel (to_serving_input input config mode' tokenizer) fs h)
  /\ (forall fuel items config mode tok fs fs' (h : Heap),
        consume fuel (to_serving_input (InList items) config mode (Some tok))
          fs h
        = consume fuel (to_serving_input (InList items) config mode
                          (Some tok)) fs' h).
Proof.
  split.
  - intros [|fuel] input config mode mode' tokenizer fs h; reflexivity.
  - intros [|fuel] items config mode tok fs fs' h; [reflexivity|].
    rewrite (consume_created_eq (InList items) config mode (Some tok) fs h
               items tok fuel eq_refl eq_refl).
    rewrite (consume_created_eq (InList items) config mode (Some tok) fs' h
               items tok fuel eq_refl eq_refl).
    apply consume_started_fs. exact I.
Qed.

Lemma consume_suspended_raises config tokenizer fs l bad rest e :
  serving_features config tokenizer bad = Raise e ->
  forall good extra (h : Heap),
    Forall (fun doc => is_ok (serving_features config tokenizer doc) = true)
           good ->
    consume (S (length good) + extra)
      (GenSuspended config tokenizer l (good ++ bad :: rest)%list) fs h
    = Some (Raise e).
Proof.
  intros Hbad. induction good as [|doc good IH]; intros extra h Hok.
  - simpl. rewrite Hbad. reflexivity.
  - apply Forall_cons in Hok as [Hdoc Hok].
    destruct (serving_features config tokenizer doc) as [features|e']
      eqn:Hfeat; [|discriminate].
    change (S (length (doc :: good)) + extra)
      with (S (S (length good) + extra)).
    remember (S (length good) + extra) as fuel eqn:Hfuel.
    simpl. rewrite Hfeat. simpl. subst fuel.
    rewrite (IH extra _ Hok). reflexivity.
Qed.

(** The observing consumer on a running generator: the lines before the
    failing one are yielded, each with the encoding of its line, and the
    iteration ends with the exception of the failing line. *)
Lemma consume_observed_suspended_raises config tokenizer fs l bad rest e :
  serving_features config tokenizer bad = Raise e ->
  forall good extra (h : Heap) d,
    Forall (fun doc => is_ok (serving_features config tokenizer doc) = true)
           good ->
    h !! l = Some d ->
    dom d ⊆ text_feature_names ->
    exists ys,
      consume_observed (S (length good) + extra)
        (GenSuspended config tokenizer l (good ++ bad :: rest)%list) fs h
      = Some (ys, Some e)
      /\ Forall2
           (fun doc y =>
              y.1 = l /\
              exists ids mask segs,
                serving_features config tokenizer doc = Ok (ids, mask, segs)
                /\ y.2 = text_features ids mask segs)
           good ys.
Proof.
  intros Hbad. induction good as [|doc good IH]; intros extra h d Hok Hl Hdom.
  - exists []. split; [|constructor]. simpl. rewrite Hbad. reflexivity.
  - apply Forall_cons in Hok as [Hdoc Hok].
    destruct (serving_features config tokenizer doc)
      as [[[ids mask] segs]|e'] eqn:Hfeat; [|discriminate].
    pose proof (store_features_lookup l ids mask segs h d Hl Hdom) as Hl1.
    destruct (IH extra (store_features l (ids, mask, segs) h)
                 (text_features ids mask segs) Hok Hl1)
      as (ys & Hrun & Hys).
    { rewrite dom_text_features. reflexivity. }
    exists ((l, text_features ids mask segs) :: ys). split.
    + change (S (length (doc :: good)) + extra)
        with (S (S (length good) + extra)).
      remember (S (length good) + extra) as fuel eqn:Hfuel.
      simpl. rewrite Hfeat. simpl.
      unfold store_features in Hrun, Hl1. rewrite Hrun.
      unfold deref. rewrite Hl1. reflexivity.
    + constructor; [|exact Hys]. split; [reflexivity|].
      exists ids, mask, segs. split; [exact Hfeat | reflexivity].
Qed.

(** X12. Nothing fails when [to_serving_input] is called; failures
    surface while the generator is consumed.  A missing or undecodable
    input file, or a tokenizer that cannot be built, makes the first
    [next] raise before anything is yielded.  A line on which the
    preprocessing raises ends the iteration with that exception after one
    dictionary was yielded for each line before it, holding the encoding
    of that line; the lines after it are never processed. *)
Theorem to_serving_input_raises_while_consumed :
  forall input config mode tokenizer fs (h : Heap),
    (forall e fuel,
        serving_inputs input fs = Raise e ->
        consume_observed (S fuel)
          (to_serving_input input config mode tokenizer) fs h
        = Some ([], Some e))
    /\ (forall inputs e fuel,
          serving_inputs input fs = Ok inputs ->
          serving_tokenizer config tokenizer fs = Raise e ->
          consume_observed (S fuel)
            (to_serving_input input config mode tokenizer) fs h
          = Some ([], Some e))
    /\ (forall tok good bad rest e extra,
          serving_inputs input fs = Ok (good ++ bad :: rest)%list ->
          serving_tokenizer config tokenizer fs = Ok tok ->
          Forall
            (fun doc => is_ok (serving_features config tok doc) = true)
            good ->
          serving_features config tok bad = Raise e ->
          exists ys,
            consume_observed (S (length good) + extra)
              (to_serving_input input config mode tokenizer) fs h
            = Some (ys, Some e)
            /\ length ys = length good
            /\ Forall2
                 (fun doc y =>
                    exists ids mask segs,
                      serving_features config tok doc = Ok (ids, mask, segs)
                      /\ y.2 = text_features ids mask segs)
                 good ys
            /\ consume (S (length good) + extra)
                 (to_serving_input input config mode tokenizer) fs h
               = Some (Raise e)).
Proof.
  intros input config mode tokenizer fs h. split; [|split].
  - intros e fuel Hinputs. unfold to_serving_input. simpl.
    rewrite Hinputs. reflexivity.
  - intros inputs e fuel Hinputs Htok. unfold to_serving_input. simpl.
    rewrite Hinputs. simpl. rewrite Htok. reflexivity.
  - intros tok good bad rest e extra Hinputs Htok Hgood Hbad.
    set (l := fresh (dom h)).
    destruct (consume_observed_suspended_raises config tok fs l bad rest e
                Hbad good extra (<[l := ∅]> h) ∅ Hgood)
      as (ys & Hrun & Hys).
    { apply lookup_insert_eq. }
    { rewrite dom_empty_L. set_solver. }
    exists ys. split; [|split; [|split]].
    + rewrite <- Hrun. unfold to_serving_input.
      change (S (length good) + extra) with (S (length good + extra)).
      remember (length good + extra) as fuel eqn:Hfuel. simpl.
      rewrite Hinputs. simpl. rewrite Htok. reflexivity.
    + symmetry. exact (Forall2_length _ _ _ Hys).
    + eapply Forall2_impl; [exact Hys|]. intros doc y [_ Hy]. exact Hy.
    + change (S (length good) + extra) with (S (length good + extra)).
      rewrite (consume_created_eq _ _ _ _ _ _ _ _ _ Hinputs Htok).
      apply (consume_suspended_raises config tok fs _ bad rest e Hbad
               good extra _ Hgood).
Qed.

(** X13. [serving_input_fn] declares, as features and as receiver tensors
    alike, exactly the three inputs that [to_serving_input] yields: every
    yielded dictionary has the declared names, and each of its values is a
    sequence, one dimension short of the declared [batch, sequence]
    placeholder of integers, so the caller still has to add the batch
    dimension. *)
Theorem serving_input_fn_matches_to_serving_input :
  forall input config mode tokenizer fs (h : Heap) inputs tok,
    serving_inputs input fs = Ok inputs ->
    serving_tokenizer config tokenizer fs = Ok tok ->
    Forall (fun doc => is_ok (serving_features config tok doc) = true)
           inputs ->
    receiver_tensors serving_input_fn = receiver_features serving_input_fn
    /\ exists ys h',
         consume (S (length inputs))
           (to_serving_input input config mode tokenizer) fs h
         = Some (Ok (ys, h'))
         /\ Forall
              (fun y =>
                 dom y.2 = dom (receiver_features serving_input_fn)
                 /\ forall k v,
                      y.2 !! k = Some v ->
                      exists ids,
                        v = Vector ids
                        /\ receiver_features serving_input_fn !! k
                           = Some (tf_placeholder tf_int32 [None; None]))
              ys.
Proof.
  intros input config mode tokenizer fs h inputs tok Hinputs Htok Hok.
  split; [reflexivity|].
  destruct (consume_to_serving_input input config mode tokenizer fs h
              inputs tok Hinputs Htok Hok)
    as (ys & h' & l & Hrun & _ & Hys & _).
  exists ys, h'. split; [exact Hrun|].
  clear - Hys. induction Hys as [|doc y docs ys Hy _ IH];
    constructor; [|exact IH].
  destruct Hy as (_ & ids & mask & segs & _ & ->). split.
  - rewrite dom_text_features. unfold serving_input_fn. simpl.
    rewrite !dom_insert_L, dom_empty_L. unfold text_feature_names.
    set_solver.
  - intros k v Hk.
    apply text_features_lookup_inv in Hk
      as [[-> ->]|[[-> ->]|[-> ->]]]; eexists; split; reflexivity.
Qed.

End ServingFurther.

Lemma to_serving_input_heap_footprint_witness :
  exists ys h' data_dict,
    @consume Sample.collaborators 3
      (to_serving_input (InList ["hello world"; "world"]) Sample.config
         "predict" None)
      Sample.fs (<[7 := text_features [9]%Z [1]%Z [0]%Z]> ∅)
    = Some (Ok (ys, h'))
    /\ data_dict <> 7
    /\ h' !! 7 = Some (text_features [9]%Z [1]%Z [0]%Z).
Proof.
  destruct (@to_serving_input_heap_footprint Sample.collaborators
              (InList ["hello world"; "world"]) Sample.config "predict"
              None Sample.fs (<[7 := text_features [9]%Z [1]%Z [0]%Z]> ∅)
              ["hello world"; "world"] Sample.tokenizer)
    as (ys & h' & l & Hrun & Hfresh & _ & Hframe & _).
  - reflexivity.
  - reflexivity.
  - apply Forall_cons. split; [reflexivity|].
    apply Forall_cons. split; [reflexivity|]. apply Forall_nil_2.
  - assert (Hne : 7 <> l).
    { intros <-. rewrite lookup_insert_eq in Hfresh. discriminate. }
    exists ys, h', l. split; [exact Hrun|]. split; [congruence|].
    rewrite Hframe by exact Hne. apply lookup_insert_eq.
Defined.

Lemma to_serving_input_raises_while_consumed_witness :
  exists ys,
    @consume_observed Sample.collaborators 2
      (to_serving_input (InList ["hello"; "unknown"; "world"]) Sample.config
         "predict" (Some Sample.tokenizer))
      Sample.fs ∅
    = Some (ys, Some (KeyError "unknown"))
    /\ length ys = 1.
Proof.
  destruct (@to_serving_input_raises_while_consumed Sample.collaborators
              (InList ["hello"; "unknown"; "world"]) Sample.config
              "predict" (Some Sample.tokenizer) Sample.fs ∅)
    as (_ & _ & Hline).
  destruct (Hline Sample.tokenizer ["hello"] "unknown" ["world"]
              (KeyError "unknown") 0) as (ys & Hrun & Hlength & _).
  - reflexivity.
  - reflexivity.
  - apply Forall_cons. split; [reflexivity | apply Forall_nil_2].
  - reflexivity.
  - exists ys. split; [exact Hrun | exact Hlength].
Defined.

Lemma serving_input_fn_matches_to_serving_input_witness :
  exists ys h',
    @consume Sample.collaborators 2
      (to_serving_input (InList ["world"]) Sample.config "predict"
         (Some Sample.tokenizer))
      Sample.fs ∅
    = Some (Ok (ys, h'))
    /\ Forall
         (fun y => dom y.2 = dom (receiver_features serving_input_fn)) ys.
Proof.
  destruct (@serving_input_fn_matches_to_serving_input Sample.collaborators
              (InList ["world"]) Sample.config "predict"
              (Some Sample.tokenizer) Sample.fs ∅ ["world"]
              Sample.tokenizer)
    as (_ & ys & h' & Hrun & Hall).
  - reflexivity.
  - reflexivity.
  - apply Forall_cons. split; [reflexivity | apply Forall_nil_2].
  - exists ys, h'. split; [exact Hrun|].
    eapply Forall_impl; [exact Hall|]. intros y [Hdom _]. exact Hdom.
Defined.
